(** * The NYC-taxi ETL notebook (nyctaxi_raw_dataset_etl.ipynb)

    A shallow embedding of the PySpark / AWS Glue notebook that joins the
    yellow-taxi fact table with its look-up tables, derives the pick-up
    calendar columns, drops columns and writes Hive-partitioned Parquet.

    The notebook's own text is the chain of DataFrame calls; the calls
    themselves belong to the engine.  The engine is modelled at the level
    of its logical semantics: a frame is a schema and a list of rows, a
    row is an ordered list of named cells, analysis errors are values of
    an error monad, and the object store is a finite map from directory
    keys to the rows stored below them.  Which strings the engine reads
    as timestamps is not fixed here: its parser is a parameter
    ([Engine]), and every property is proved for every parser. *)

From stdpp Require Import gmap strings list fin_maps sorting pretty.
From Stdlib Require Import ZArith Ascii.
From Stdlib Require OrderedTypeEx.

Local Open Scope string_scope.
Local Open Scope list_scope.
Local Open Scope Z_scope.

(** ** Values, rows and frames *)

Record timestamp := Timestamp {
  ts_year : Z; ts_month : Z; ts_day : Z;
  ts_hour : Z; ts_minute : Z; ts_second : Z
}.

(** A cell: SQL null, a bigint, a string or a timestamp.  The measure
    columns of the fact table (fares, distances) are only passed through,
    a cell of any kind carries them. *)
Inductive value :=
| VNull
| VInt (z : Z)
| VStr (s : string)
| VTs (t : timestamp).

#[global] Instance timestamp_eq_dec : EqDecision timestamp.
Proof. solve_decision. Defined.
#[global] Instance value_eq_dec : EqDecision value.
Proof. solve_decision. Defined.

#[global] Instance timestamp_countable : Countable timestamp.
Proof.
  refine (inj_countable'
    (λ t, (ts_year t, ts_month t, ts_day t, ts_hour t, ts_minute t, ts_second t))
    (λ '(y, mo, d, h, mi, s), Timestamp y mo d h mi s) _).
  by intros [].
Defined.

#[global] Instance value_countable : Countable value.
Proof.
  refine (inj_countable'
    (λ v, match v with
          | VNull => inl ()
          | VInt z => inr (inl z)
          | VStr s => inr (inr (inl s))
          | VTs t => inr (inr (inr t))
          end)
    (λ x, match x with
          | inl _ => VNull
          | inr (inl z) => VInt z
          | inr (inr (inl s)) => VStr s
          | inr (inr (inr t)) => VTs t
          end) _).
  by intros [].
Defined.

(** A row is what [pyspark.sql.Row] is: an ordered tuple of named cells. *)
Abbreviation Row := (list (string * value)).

Definition names (r : Row) : list string := r.*1.

(** [r[name]]: the first cell of that name; null when there is none. *)
Fixpoint cell (name : string) (r : Row) : value :=
  match r with
  | [] => VNull
  | (n, v) :: r' => if String.eqb name n then v else cell name r'
  end.

Record DataFrame := {
  columns : list string;
  rows : list Row
}.

(** A Glue DynamicFrame: the catalog's field list and self-describing
    records. *)
Record DynamicFrame := {
  dyf_fields : list string;
  dyf_records : list Row
}.

(** ** Errors *)

Inductive error :=
| EntityNotFound (database table : string)
| AnalysisException (msg column : string)
| IllegalArgumentException (msg : string).

Inductive Result (A : Type) :=
| Ok (a : A)
| Err (e : error).
Arguments Ok {A} a.
Arguments Err {A} e.

#[global] Instance Result_ret : MRet Result := λ A a, Ok a.
#[global] Instance Result_bind : MBind Result := λ A B f m,
  match m with
  | Ok a => f a
  | Err e => Err e
  end.

(** A column name resolves when exactly one column of the frame has it.
    Names are compared as they are written; the catalog holds them in
    lower case. *)
Definition resolve (name : string) (cols : list string) : Result unit :=
  match filter (λ c, c = name) cols with
  | [_] => Ok ()
  | [] => Err (AnalysisException "cannot resolve" name)
  | _ => Err (AnalysisException "ambiguous reference" name)
  end.

(** ** Timestamps *)

(** The timestamp parser belongs to the engine the notebook is run on,
    not to the notebook, and which strings it reads under a pattern
    differs from one engine version to the next (unpadded fields, text
    after the last field, a sign before the year).  It is a parameter of
    the development: [parse_timestamp fmt s] is the instant the engine
    reads in [s] under the pattern [fmt], and [None] when it reads
    none. *)
Class Engine := parse_timestamp : string → string → option timestamp.

(** *** A parser to run the examples with *)

Definition digit (c : ascii) : option Z :=
  let n := Z.of_nat (nat_of_ascii c) in
  if (48 <=? n) && (n <=? 57) then Some (n - 48) else None.

Definition push_digit (letter : ascii) (d : Z) (t : timestamp) : option timestamp :=
  let '(Timestamp y mo dd h mi s) := t in
  if Ascii.eqb letter "y" then Some (Timestamp (10 * y + d) mo dd h mi s)
  else if Ascii.eqb letter "M" then Some (Timestamp y (10 * mo + d) dd h mi s)
  else if Ascii.eqb letter "d" then Some (Timestamp y mo (10 * dd + d) h mi s)
  else if Ascii.eqb letter "H" then Some (Timestamp y mo dd (10 * h + d) mi s)
  else if Ascii.eqb letter "m" then Some (Timestamp y mo dd h (10 * mi + d) s)
  else if Ascii.eqb letter "s" then Some (Timestamp y mo dd h mi (10 * s + d))
  else None.

Definition is_pattern_letter (c : ascii) : bool :=
  existsb (Ascii.eqb c) ["y"; "M"; "d"; "H"; "m"; "s"]%char.

(** This parser reads the pattern strictly: every pattern letter takes
    one digit of the input, every other pattern character takes itself,
    and the input ends where the pattern ends.  It accepts fewer strings
    than the engines do. *)
Fixpoint parse_fields (pat inp : list ascii) (t : timestamp) : option timestamp :=
  match pat, inp with
  | [], [] => Some t
  | p :: pat', c :: inp' =>
      if is_pattern_letter p then
        match digit c with
        | Some d =>
            match push_digit p d t with
            | Some t' => parse_fields pat' inp' t'
            | None => None
            end
        | None => None
        end
      else if Ascii.eqb p c then parse_fields pat' inp' t
      else None
  | _, _ => None
  end.

Definition leap_year (y : Z) : bool :=
  ((y mod 4 =? 0) && negb (y mod 100 =? 0)) || (y mod 400 =? 0).

Definition days_in_month (y m : Z) : Z :=
  if m =? 2 then (if leap_year y then 29 else 28)
  else if (m =? 4) || (m =? 6) || (m =? 9) || (m =? 11) then 30
  else 31.

Definition valid_timestamp (t : timestamp) : bool :=
  (1 <=? ts_month t) && (ts_month t <=? 12) &&
  (1 <=? ts_day t) && (ts_day t <=? days_in_month (ts_year t) (ts_month t)) &&
  (ts_hour t <=? 23) && (ts_minute t <=? 59) && (ts_second t <=? 59).

Definition strict_parse_timestamp (fmt s : string) : option timestamp :=
  match parse_fields (String.list_ascii_of_string fmt) (String.list_ascii_of_string s)
                     (Timestamp 0 0 0 0 0 0) with
  | Some t => if valid_timestamp t then Some t else None
  | None => None
  end.

(** ** Column expressions *)

Inductive Column :=
| col (name : string)
| to_timestamp (c : Column) (fmt : string)
| year (c : Column)
| month (c : Column)
| dayofmonth (c : Column).

(** [to_timestamp]: the instant the engine reads in a string, null when
    it reads none; a timestamp is kept as it is. *)
Definition to_timestamp_value `{!Engine} (fmt : string) (v : value) : value :=
  match v with
  | VStr s => match parse_timestamp fmt s with Some t => VTs t | None => VNull end
  | VTs t => VTs t
  | _ => VNull
  end.

Definition field_of (f : timestamp → Z) (v : value) : value :=
  match v with
  | VTs t => VInt (f t)
  | _ => VNull
  end.

Fixpoint eval `{!Engine} (c : Column) (r : Row) : value :=
  match c with
  | col name => cell name r
  | to_timestamp c' fmt => to_timestamp_value fmt (eval c' r)
  | year c' => field_of ts_year (eval c' r)
  | month c' => field_of ts_month (eval c' r)
  | dayofmonth c' => field_of ts_day (eval c' r)
  end.

Fixpoint analyze (c : Column) (cols : list string) : Result unit :=
  match c with
  | col name => resolve name cols
  | to_timestamp c' _ | year c' | month c' | dayofmonth c' => analyze c' cols
  end.

(** ** Glue: ApplyMapping and toDF *)

Fixpoint digits_value (cs : list ascii) (acc : Z) : option Z :=
  match cs with
  | [] => Some acc
  | c :: cs' =>
      match digit c with
      | Some d => digits_value cs' (10 * acc + d)
      | None => None
      end
  end.

Definition parse_bigint (s : string) : option Z :=
  match String.list_ascii_of_string s with
  | [] => None
  | "-"%char :: ((_ :: _) as cs) => Z.opp <$> digits_value cs 0
  | cs => digits_value cs 0
  end.

(** Retyping a cell to the mapping's target type; what cannot be
    converted is null. *)
Definition cast (target_type : string) (v : value) : value :=
  match v with
  | VNull => VNull
  | VInt z =>
      if String.eqb target_type "bigint" then VInt z
      else if String.eqb target_type "string" then VStr (pretty z)
      else VNull
  | VStr s =>
      if String.eqb target_type "string" then VStr s
      else if String.eqb target_type "bigint" then
        match parse_bigint s with Some z => VInt z | None => VNull end
      else VNull
  | VTs t => if String.eqb target_type "timestamp" then VTs t else VNull
  end.

(** One entry of a mapping list:
    (source column, source type, target column, target type). *)
Definition Mapping := (string * string * string * string)%type.

Definition map_record (mappings : list Mapping) (rec : Row) : Row :=
  (λ '(source, _, target, target_type), (target, cast target_type (cell source rec)))
    <$> mappings.

Definition apply_mapping (mappings : list Mapping) (dyf : DynamicFrame) : DynamicFrame :=
  {| dyf_fields := (λ '(_, _, target, _), target) <$> mappings;
     dyf_records := map_record mappings <$> dyf_records dyf |}.

Definition toRow (fields : list string) (rec : Row) : Row :=
  (λ c, (c, cell c rec)) <$> fields.

Definition toDF (dyf : DynamicFrame) : DataFrame :=
  {| columns := dyf_fields dyf;
     rows := toRow (dyf_fields dyf) <$> dyf_records dyf |}.

(** ** Spark: repartition, cache, join *)

(** Both only shape how the rows are held by the workers. *)
Definition repartition (numPartitions : Z) (df : DataFrame) : DataFrame := df.
Definition cache (df : DataFrame) : DataFrame := df.

(** SQL equality of two join keys of one type: null equals nothing.
    The look-up keys are bigint (their mappings say so); where a key
    column of the yellow table is of another type the engine casts
    before it compares, which is not modelled: the properties that depend
    on which rows match are stated for yellow tables with bigint keys
    ([bigint_keys] below). *)
Definition sql_eq (a b : value) : Prop := a ≠ VNull ∧ a = b.

#[global] Instance sql_eq_dec a b : Decision (sql_eq a b).
Proof. unfold sql_eq. apply _. Defined.

(** How an inner equi-join is executed: left key, right key, left rows,
    right rows. *)
Definition JoinStrategy := string → string → list Row → list Row → list Row.

(** The broadcast hash join: the look-up side is hashed on its key and
    handed to every partition of the streamed side, which probes it row
    by row. *)
Definition build_hash (rk : string) (rs : list Row) : gmap value (list Row) :=
  foldr (λ b m, <[cell rk b := b :: default [] (m !! cell rk b)]> m) ∅ rs.

Definition probe (lk : string) (m : gmap value (list Row)) (a : Row) : list Row :=
  match cell lk a with
  | VNull => []
  | k => (a ++.) <$> default [] (m !! k)
  end.

Definition broadcast_hash_join : JoinStrategy := λ lk rk ls rs,
  let hashed := build_hash rk rs in
  ls ≫= probe lk hashed.

(** The shuffled hash join, what the engine does to two large sides:
    both are split on the key into [n] partitions, and the partitions of
    the same number are hash-joined with each other. *)
Definition shuffle (partitioner : value → nat) (n : nat) (k : string) (i : nat)
    (rs : list Row) : list Row :=
  filter (λ r, (partitioner (cell k r) mod n)%nat = i) rs.

Definition shuffled_hash_join (partitioner : value → nat) (n : nat) : JoinStrategy :=
  λ lk rk ls rs,
    seq 0 n ≫= λ i,
      broadcast_hash_join lk rk (shuffle partitioner n lk i ls)
                                (shuffle partitioner n rk i rs).

(** [broadcast(df)] marks the frame to be joined that way. *)
Definition broadcast (df : DataFrame) : DataFrame * JoinStrategy :=
  (df, broadcast_hash_join).

(** [df[name]] *)
Definition getitem (df : DataFrame) (name : string) : Result string :=
  _ ← resolve name (columns df); mret name.

(** [left[l] == right[r]] *)
Definition eq_cond (left : DataFrame) (l : string) (right : DataFrame) (r : string)
  : Result (string * string) :=
  lk ← getitem left l; rk ← getitem right r; mret (lk, rk).

(** [left.join(right, on)], an inner join. *)
Definition join (left : DataFrame) (right : DataFrame * JoinStrategy)
    (on : string * string) : DataFrame :=
  {| columns := columns left ++ columns right.1;
     rows := right.2 on.1 on.2 (rows left) (rows right.1) |}.

(** ** Spark: withColumn, orderBy, drop *)

Definition set_name (name : string) (cols : list string) : list string :=
  if decide (name ∈ cols) then cols else cols ++ [name].

Definition set_cell (name : string) (v : value) (r : Row) : Row :=
  if decide (name ∈ names r)
  then (λ c : string * value, if decide (c.1 = name) then (c.1, v) else c) <$> r
  else r ++ [(name, v)].

Definition withColumn `{!Engine} (name : string) (c : Column) (df : DataFrame)
  : Result DataFrame :=
  _ ← analyze c (columns df);
  mret {| columns := set_name name (columns df);
          rows := (λ r, set_cell name (eval c r) r) <$> rows df |}.

Definition lex (c1 c2 : comparison) : comparison :=
  match c1 with Eq => c2 | _ => c1 end.

Definition timestamp_compare (s t : timestamp) : comparison :=
  lex (ts_year s ?= ts_year t)
  (lex (ts_month s ?= ts_month t)
  (lex (ts_day s ?= ts_day t)
  (lex (ts_hour s ?= ts_hour t)
  (lex (ts_minute s ?= ts_minute t) (ts_second s ?= ts_second t))))).

Definition value_rank (v : value) : Z :=
  match v with VNull => 0 | VInt _ => 1 | VStr _ => 2 | VTs _ => 3 end.

(** Ascending order, nulls first. *)
Definition value_compare (a b : value) : comparison :=
  match a, b with
  | VInt x, VInt y => x ?= y
  | VStr s, VStr t => String.compare s t
  | VTs s, VTs t => timestamp_compare s t
  | _, _ => value_rank a ?= value_rank b
  end.

Fixpoint row_compare (keys : list string) (r1 r2 : Row) : comparison :=
  match keys with
  | [] => Eq
  | k :: keys' => lex (value_compare (cell k r1) (cell k r2)) (row_compare keys' r1 r2)
  end.

Definition row_le (keys : list string) (r1 r2 : Row) : Prop :=
  row_compare keys r1 r2 ≠ Gt.

#[global] Instance row_le_dec keys : RelDecision (row_le keys).
Proof. intros r1 r2. unfold row_le. apply _. Defined.

Fixpoint resolve_all (cols_wanted cols : list string) : Result unit :=
  match cols_wanted with
  | [] => Ok ()
  | c :: rest => _ ← resolve c cols; resolve_all rest cols
  end.

Definition orderBy (keys : list string) (df : DataFrame) : Result DataFrame :=
  _ ← resolve_all keys (columns df);
  mret {| columns := columns df;
          rows := merge_sort (row_le keys) (rows df) |}.

(** Dropping by name removes every column of that name and ignores
    names the frame does not have. *)
Definition drop_cells (dropped : list string) (r : Row) : Row :=
  filter (λ c : string * value, c.1 ∉ dropped) r.

Definition drop (dropped : list string) (df : DataFrame) : DataFrame :=
  {| columns := filter (λ c, c ∉ dropped) (columns df);
     rows := drop_cells dropped <$> rows df |}.

(** ** Spark: the DataFrameWriter and the object store *)

Inductive SaveMode := Append | Overwrite | ErrorIfExists | Ignore.

Definition save_mode (saveMode : string) : option SaveMode :=
  if String.eqb saveMode "overwrite" then Some Overwrite
  else if String.eqb saveMode "append" then Some Append
  else if String.eqb saveMode "ignore" then Some Ignore
  else if String.eqb saveMode "error" || String.eqb saveMode "errorifexists"
          || String.eqb saveMode "default" then Some ErrorIfExists
  else None.

Record DataFrameWriter := {
  w_df : DataFrame;
  w_mode : string;
  w_format : string;
  w_options : list (string * Z);
  w_partitionBy : list string
}.

Definition write (df : DataFrame) : DataFrameWriter :=
  {| w_df := df; w_mode := "error"; w_format := "parquet";
     w_options := []; w_partitionBy := [] |}.

Definition mode (saveMode : string) (w : DataFrameWriter) : DataFrameWriter :=
  {| w_df := w_df w; w_mode := saveMode; w_format := w_format w;
     w_options := w_options w; w_partitionBy := w_partitionBy w |}.

Definition format (f : string) (w : DataFrameWriter) : DataFrameWriter :=
  {| w_df := w_df w; w_mode := w_mode w; w_format := f;
     w_options := w_options w; w_partitionBy := w_partitionBy w |}.

Definition writer_option (key : string) (v : Z) (w : DataFrameWriter) : DataFrameWriter :=
  {| w_df := w_df w; w_mode := w_mode w; w_format := w_format w;
     w_options := (key, v) :: w_options w; w_partitionBy := w_partitionBy w |}.

Definition partitionBy (cols : list string) (w : DataFrameWriter) : DataFrameWriter :=
  {| w_df := w_df w; w_mode := w_mode w; w_format := w_format w;
     w_options := w_options w; w_partitionBy := cols |}.

Definition pad2 (z : Z) : string :=
  if z <? 10 then "0" +:+ pretty z else pretty z.

Definition format_timestamp (t : timestamp) : string :=
  pretty (ts_year t) +:+ "-" +:+ pad2 (ts_month t) +:+ "-" +:+ pad2 (ts_day t)
  +:+ " " +:+ pad2 (ts_hour t) +:+ ":" +:+ pad2 (ts_minute t)
  +:+ ":" +:+ pad2 (ts_second t).

(** A partition value as it is spelled in a directory name (the
    notebook partitions by integers; the escaping of other characters is
    left out). *)
Definition hive_value (v : value) : string :=
  match v with
  | VNull => "__HIVE_DEFAULT_PARTITION__"
  | VInt z => pretty z
  | VStr s => s
  | VTs t => format_timestamp t
  end.

(** [k1=v1/k2=v2/] *)
Fixpoint partition_segments (keys : list string) (r : Row) : string :=
  match keys with
  | [] => ""
  | k :: keys' => k +:+ "=" +:+ hive_value (cell k r) +:+ "/" +:+ partition_segments keys' r
  end.

Definition partition_dir (path : string) (keys : list string) (r : Row) : string :=
  path +:+ partition_segments keys r.

(** The directories a frame is laid out in, each with the rows written
    below it; the partition columns live in the directory name only. *)
Definition layout (path : string) (keys : list string) (rs : list Row)
  : gmap string (list Row) :=
  foldr (λ r m,
           let d := partition_dir path keys r in
           <[d := drop_cells keys r :: default [] (m !! d)]> m) ∅ rs.

Definition under (path : string) (key : string) : Prop :=
  String.prefix path key = true.

#[global] Instance under_dec path key : Decision (under path key).
Proof. unfold under. apply _. Defined.

Definition below (path : string) (store : gmap string (list Row))
  : gmap string (list Row) :=
  filter (λ kv, under path kv.1) store.

Definition outside (path : string) (store : gmap string (list Row))
  : gmap string (list Row) :=
  filter (λ kv, ¬ under path kv.1) store.

Definition save (path : string) (w : DataFrameWriter) (store : gmap string (list Row))
  : Result (gmap string (list Row)) :=
  let df := w_df w in
  m ← match save_mode (w_mode w) with
      | Some m => Ok m
      | None => Err (IllegalArgumentException "unknown save mode")
      end;
  _ ← (if decide (NoDup (columns df)) then Ok ()
       else Err (AnalysisException "duplicate column(s)" path));
  _ ← resolve_all (w_partitionBy w) (columns df);
  _ ← (if decide (filter (λ c, c ∉ w_partitionBy w) (columns df) = [])
       then Err (AnalysisException "all columns are partition columns" path)
       else Ok ());
  let new := layout path (w_partitionBy w) (rows df) in
  match m with
  | Overwrite => mret (new ∪ outside path store)
  | Append => mret (union_with (λ old added, Some (old ++ added)) store new)
  | ErrorIfExists =>
      if decide (below path store = ∅) then mret (new ∪ store)
      else Err (AnalysisException "path already exists" path)
  | Ignore =>
      if decide (below path store = ∅) then mret (new ∪ store)
      else mret store
  end.

(** ** The notebook *)

(** *** Cell 1 *)

Definition your_bucket_name : string := "ant313-1-087687018744".

(** *** Cell 2: the four catalog tables *)

(** The catalog: databases, and in each its tables. *)
Definition from_catalog (catalog : gmap string (gmap string DynamicFrame))
    (database table_name : string) : Result DynamicFrame :=
  match catalog !! database ≫= (.!! table_name) with
  | Some dyf => Ok dyf
  | None => Err (EntityNotFound database table_name)
  end.

Record Tables := {
  yellow_dyf : DynamicFrame;
  taxi_zone_dyf : DynamicFrame;
  payment_type_dyf : DynamicFrame;
  rate_code_dyf : DynamicFrame
}.

Definition load_tables (catalog : gmap string (gmap string DynamicFrame)) : Result Tables :=
  yellow ← from_catalog catalog "nyctaxi" "yellow";
  taxi_zone ← from_catalog catalog "nyctaxi" "taxizone";
  payment_type ← from_catalog catalog "nyctaxi" "paymenttype";
  rate_code ← from_catalog catalog "nyctaxi" "ratecode";
  mret {| yellow_dyf := yellow; taxi_zone_dyf := taxi_zone;
          payment_type_dyf := payment_type; rate_code_dyf := rate_code |}.

(** *** Cell 3: the mapped look-ups *)

Definition pu_taxi_zone_df (t : Tables) : DataFrame :=
  toDF (apply_mapping [
    ("locationid", "bigint", "pu_locationid", "bigint");
    ("borough", "string", "pu_borough", "string");
    ("zone", "string", "pu_zone", "string");
    ("service_zone", "string", "pu_service_zone", "string")] (taxi_zone_dyf t)).

Definition do_taxi_zone_df (t : Tables) : DataFrame :=
  toDF (apply_mapping [
    ("locationid", "bigint", "do_locationid", "bigint");
    ("borough", "string", "do_borough", "string");
    ("zone", "string", "do_zone", "string");
    ("service_zone", "string", "do_service_zone", "string")] (taxi_zone_dyf t)).

Definition payment_type_df (t : Tables) : DataFrame :=
  toDF (apply_mapping [
    ("id", "bigint", "payment_type_id", "bigint");
    ("name", "string", "payment_type_name", "string")] (payment_type_dyf t)).

Definition rate_code_df (t : Tables) : DataFrame :=
  toDF (apply_mapping [
    ("id", "bigint", "ratecode_id", "bigint");
    ("name", "string", "ratecode_name", "string")] (payment_type_dyf t)).

Definition taxi_zone_df (t : Tables) : DataFrame := toDF (taxi_zone_dyf t).

(** *** Cell 4 *)

Definition yellow_df (t : Tables) : DataFrame :=
  cache (repartition (4 * 10) (toDF (yellow_dyf t))).

(** *** Cell 5: join, derive, order, drop

    [hint] is what is applied to each look-up before it is joined; the
    notebook applies [broadcast]. *)

Definition timestamp_format : string := "yyyy-MM-dd HH:mm:ss".

Definition dropped_columns : list string :=
  ["store_and_fwd_flag"; "pulocationid"; "dolocationid"; "payment_type_id";
   "ratecodeid"; "tpep_pickup_datetime"; "tpep_dropoff_datetime"].

Definition enrich `{!Engine} (hint : DataFrame → DataFrame * JoinStrategy) (t : Tables)
  : Result DataFrame :=
  on_pu ← eq_cond (yellow_df t) "pulocationid" (pu_taxi_zone_df t) "pu_locationid";
  let j1 := join (yellow_df t) (hint (pu_taxi_zone_df t)) on_pu in
  on_do ← eq_cond (yellow_df t) "dolocationid" (do_taxi_zone_df t) "do_locationid";
  let j2 := join j1 (hint (do_taxi_zone_df t)) on_do in
  on_pt ← eq_cond (yellow_df t) "payment_type" (payment_type_df t) "payment_type_id";
  let j3 := join j2 (hint (payment_type_df t)) on_pt in
  on_rc ← eq_cond (yellow_df t) "ratecodeid" (rate_code_df t) "ratecode_id";
  let j4 := join j3 (hint (rate_code_df t)) on_rc in
  w1 ← withColumn "pu_datetime"
         (to_timestamp (col "tpep_pickup_datetime") timestamp_format) j4;
  w2 ← withColumn "do_datetime"
         (to_timestamp (col "tpep_dropoff_datetime") timestamp_format) w1;
  w3 ← withColumn "pu_year" (year (col "pu_datetime")) w2;
  w4 ← withColumn "pu_month" (month (col "pu_datetime")) w3;
  w5 ← withColumn "pu_day" (dayofmonth (col "pu_datetime")) w4;
  sorted ← orderBy ["pu_year"; "pu_month"; "pu_day"] w5;
  mret (drop dropped_columns sorted).

Definition yellow_opt_df `{!Engine} (t : Tables) : Result DataFrame := enrich broadcast t.

(** *** Cell 7: the write *)

Definition blockSize : Z := 1024 * 1024 * 32.

Definition destination : string :=
  "s3://" +:+ your_bucket_name +:+ "/data/staging/nyctaxi/yellow_opt/".

Definition yellow_opt_writer (df : DataFrame) : DataFrameWriter :=
  partitionBy ["pu_year"; "pu_month"]
    (writer_option "parquet.block.size" blockSize
      (format "parquet" (mode "overwrite" (write df)))).

Definition write_yellow_opt `{!Engine} (t : Tables) (store : gmap string (list Row))
  : Result (gmap string (list Row)) :=
  df ← yellow_opt_df t;
  save destination (yellow_opt_writer df) store.

Definition notebook `{!Engine} (catalog : gmap string (gmap string DynamicFrame))
    (store : gmap string (list Row)) : Result (gmap string (list Row)) :=
  t ← load_tables catalog;
  write_yellow_opt t store.

(** ** Sample tables *)

Definition yellow_fields : list string :=
  ["vendorid"; "tpep_pickup_datetime"; "tpep_dropoff_datetime"; "passenger_count";
   "trip_distance"; "ratecodeid"; "store_and_fwd_flag"; "pulocationid";
   "dolocationid"; "payment_type"; "fare_amount"; "extra"; "mta_tax";
   "tip_amount"; "tolls_amount"; "improvement_surcharge"; "total_amount"].

Definition trip (pickup dropoff : string) (ratecodeid pulocationid dolocationid payment_type : Z)
  : Row :=
  [("vendorid", VInt 1); ("tpep_pickup_datetime", VStr pickup);
   ("tpep_dropoff_datetime", VStr dropoff); ("passenger_count", VInt 1);
   ("trip_distance", VStr "2.5"); ("ratecodeid", VInt ratecodeid);
   ("store_and_fwd_flag", VStr "N"); ("pulocationid", VInt pulocationid);
   ("dolocationid", VInt dolocationid); ("payment_type", VInt payment_type);
   ("fare_amount", VStr "12.5"); ("extra", VStr "0.5"); ("mta_tax", VStr "0.5");
   ("tip_amount", VStr "2.0"); ("tolls_amount", VStr "0.0");
   ("improvement_surcharge", VStr "0.3"); ("total_amount", VStr "15.8")].

Definition zone (locationid : Z) (borough zone_name service_zone : string) : Row :=
  [("locationid", VInt locationid); ("borough", VStr borough);
   ("zone", VStr zone_name); ("service_zone", VStr service_zone)].

Definition named (id : Z) (name : string) : Row :=
  [("id", VInt id); ("name", VStr name)].

Definition sample_zones : DynamicFrame :=
  {| dyf_fields := ["locationid"; "borough"; "zone"; "service_zone"];
     dyf_records := [zone 1 "EWR" "Newark Airport" "EWR";
                     zone 2 "Queens" "Jamaica Bay" "Boro Zone";
                     zone 4 "Manhattan" "Alphabet City" "Yellow Zone"] |}.

Definition sample_payment_types : DynamicFrame :=
  {| dyf_fields := ["id"; "name"];
     dyf_records := [named 1 "Credit card"; named 2 "Cash"; named 3 "No charge"] |}.

Definition sample_rate_codes : DynamicFrame :=
  {| dyf_fields := ["id"; "name"];
     dyf_records := [named 1 "Standard rate"; named 2 "JFK"; named 99 "Unknown"] |}.

Definition sample_tables (trips : list Row) : Tables :=
  {| yellow_dyf := {| dyf_fields := yellow_fields; dyf_records := trips |};
     taxi_zone_dyf := sample_zones;
     payment_type_dyf := sample_payment_types;
     rate_code_dyf := sample_rate_codes |}.

Definition sample_catalog (trips : list Row) : gmap string (gmap string DynamicFrame) :=
  {[ "nyctaxi" :=
       {[ "yellow" := {| dyf_fields := yellow_fields; dyf_records := trips |};
          "taxizone" := sample_zones;
          "paymenttype" := sample_payment_types;
          "ratecode" := sample_rate_codes ]} ]}.

Definition example_trip : Row :=
  trip "2019-01-15 08:30:00" "2019-01-15 08:47:10" 1 1 2 1.

(** A taxi-zone table in which location 1 is listed twice. *)
Definition duplicated_zones : DynamicFrame :=
  {| dyf_fields := ["locationid"; "borough"; "zone"; "service_zone"];
     dyf_records := [zone 1 "EWR" "Newark Airport" "EWR";
                     zone 1 "Queens" "Jamaica Bay" "Boro Zone";
                     zone 2 "Queens" "Jamaica Bay" "Boro Zone"] |}.

Definition duplicated_tables (trips : list Row) : Tables :=
  {| yellow_dyf := {| dyf_fields := yellow_fields; dyf_records := trips |};
     taxi_zone_dyf := duplicated_zones;
     payment_type_dyf := sample_payment_types;
     rate_code_dyf := sample_rate_codes |}.

(** A trip charged at rate code 99, which the sample rate-code table
    lists and the sample payment-type table does not. *)
Definition rate_99_trip : Row :=
  trip "2019-01-15 08:30:00" "2019-01-15 08:47:10" 99 1 2 1.

Definition round_trip : Row :=
  trip "2019-01-15 08:30:00" "2019-01-15 09:05:00" 1 1 1 1.

Definition unparsable_trip : Row :=
  trip "15/01/2019 08:30" "2019-02-30 09:05:00" 1 1 2 1.


(** The sample run: a fully matched trip, a trip whose rate code the
    joined look-up lacks, a trip with unparsable timestamps and a trip
    within one zone. *)
Definition sample_run : Tables :=
  sample_tables [example_trip; rate_99_trip; unparsable_trip; round_trip].

(** ** Definitions used to state the properties *)

(** The look-up rows a key value matches. *)
Definition matches (rk : string) (rs : list Row) (k : value) : list Row :=
  filter (λ b, sql_eq k (cell rk b)) rs.

(** What a join is, whatever executes it: an inner join on an explicit
    key pair. *)
Definition inner_join : JoinStrategy := λ lk rk ls rs,
  ls ≫= λ a, (a ++.) <$> matches rk rs (cell lk a).

Definition implements_inner_join (J : JoinStrategy) : Prop :=
  ∀ lk rk ls rs, J lk rk ls rs ≡ₚ inner_join lk rk ls rs.

(** A partitioner for the sample runs. *)
Definition sample_partitioner (v : value) : nat :=
  match v with
  | VInt z => Z.to_nat (Z.abs z)
  | VStr s => String.length s
  | _ => 0%nat
  end.

(** A look-up joined without a hint, by the strategy [J]. *)
Definition unhinted (J : JoinStrategy) (df : DataFrame) : DataFrame * JoinStrategy :=
  (df, J).

(** Frames with the same schema and the same rows, in any order. *)
Definition same_frame (d1 d2 : DataFrame) : Prop :=
  columns d1 = columns d2 ∧ rows d1 ≡ₚ rows d2.

Definition same_result (r1 r2 : Result DataFrame) : Prop :=
  match r1, r2 with
  | Ok d1, Ok d2 => same_frame d1 d2
  | Err e1, Err e2 => e1 = e2
  | _, _ => False
  end.

(** The columns the notebook reads from the fact table, and the names
    it gives to look-up and derived columns. *)
Definition required_columns : list string :=
  ["pulocationid"; "dolocationid"; "payment_type"; "ratecodeid";
   "tpep_pickup_datetime"; "tpep_dropoff_datetime"].

Definition lookup_columns : list string :=
  ["pu_locationid"; "pu_borough"; "pu_zone"; "pu_service_zone";
   "do_locationid"; "do_borough"; "do_zone"; "do_service_zone";
   "payment_type_id"; "payment_type_name"; "ratecode_id"; "ratecode_name"].

Definition derived_columns : list string :=
  ["pu_datetime"; "do_datetime"; "pu_year"; "pu_month"; "pu_day"].

(** The look-up columns that stay in the result. *)
Definition kept_lookup_columns : list string :=
  filter (λ c, c ∉ dropped_columns) lookup_columns.

(** A fact schema the notebook runs on: no column twice, the columns it
    reads are there, and none carries a look-up or derived name. *)
Definition fact_schema_ok (fields : list string) : bool :=
  bool_decide (NoDup fields)
  && bool_decide (Forall (λ c, c ∈ fields) required_columns)
  && bool_decide (Forall (λ c, c ∉ fields) (lookup_columns ++ derived_columns)).

(** The columns of the result, for a fact table with these fields. *)
Definition output_columns (fields : list string) : list string :=
  filter (λ c, c ∉ dropped_columns) fields
  ++ ["pu_locationid"; "pu_borough"; "pu_zone"; "pu_service_zone";
      "do_locationid"; "do_borough"; "do_zone"; "do_service_zone";
      "payment_type_name"; "ratecode_id"; "ratecode_name";
      "pu_datetime"; "do_datetime"; "pu_year"; "pu_month"; "pu_day"].

(** The five derived cells, added to a joined row one after the other. *)
Definition derive `{!Engine} (r : Row) : Row :=
  let r1 := set_cell "pu_datetime"
              (eval (to_timestamp (col "tpep_pickup_datetime") timestamp_format) r) r in
  let r2 := set_cell "do_datetime"
              (eval (to_timestamp (col "tpep_dropoff_datetime") timestamp_format) r1) r1 in
  let r3 := set_cell "pu_year" (eval (year (col "pu_datetime")) r2) r2 in
  let r4 := set_cell "pu_month" (eval (month (col "pu_datetime")) r3) r3 in
  set_cell "pu_day" (eval (dayofmonth (col "pu_datetime")) r4) r4.

Definition finish `{!Engine} (r : Row) : Row := drop_cells dropped_columns (derive r).

(** The rows of the fourth join. *)
Definition joined (J : JoinStrategy) (t : Tables) : list Row :=
  J "ratecodeid" "ratecode_id"
    (J "payment_type" "payment_type_id"
      (J "dolocationid" "do_locationid"
        (J "pulocationid" "pu_locationid" (rows (yellow_df t)) (rows (pu_taxi_zone_df t)))
        (rows (do_taxi_zone_df t)))
      (rows (payment_type_df t)))
    (rows (rate_code_df t)).



Definition pu_matches (t : Tables) (a : Row) : list Row :=
  matches "pu_locationid" (rows (pu_taxi_zone_df t)) (cell "pulocationid" a).
Definition do_matches (t : Tables) (a : Row) : list Row :=
  matches "do_locationid" (rows (do_taxi_zone_df t)) (cell "dolocationid" a).
Definition payment_matches (t : Tables) (a : Row) : list Row :=
  matches "payment_type_id" (rows (payment_type_df t)) (cell "payment_type" a).
Definition rate_matches (t : Tables) (a : Row) : list Row :=
  matches "ratecode_id" (rows (rate_code_df t)) (cell "ratecodeid" a).

(** A fact row with a match in each of the four look-ups. *)
Definition full_match (t : Tables) (a : Row) : Prop :=
  pu_matches t a ≠ [] ∧ do_matches t a ≠ []
  ∧ payment_matches t a ≠ [] ∧ rate_matches t a ≠ [].

#[global] Instance full_match_dec t a : Decision (full_match t a).
Proof. unfold full_match. apply _. Defined.


(** The joined rows one fact row gives rise to. *)
Definition expand (t : Tables) (a : Row) : list Row :=
  b1 ← pu_matches t a; b2 ← do_matches t a; b3 ← payment_matches t a;
  (λ b4, (((a ++ b1) ++ b2) ++ b3) ++ b4) <$> rate_matches t a.



(** How the derived cells of an output row [r] come from the raw
    timestamp strings of the fact row [a] it derives from. *)
Definition derived_timestamps `{!Engine} (a r : Row) : Prop :=
  cell "pu_datetime" r
  = to_timestamp_value timestamp_format (cell "tpep_pickup_datetime" a)
  ∧ cell "do_datetime" r
    = to_timestamp_value timestamp_format (cell "tpep_dropoff_datetime" a)
  ∧ cell "pu_year" r = field_of ts_year (cell "pu_datetime" r)
  ∧ cell "pu_month" r = field_of ts_month (cell "pu_datetime" r)
  ∧ cell "pu_day" r = field_of ts_day (cell "pu_datetime" r).


(** What [year], [month] and [dayofmonth] return. *)
Definition int_or_null (v : value) : Prop :=
  match v with
  | VNull | VInt _ => True
  | _ => False
  end.

(** The directories a run leaves in the store. *)
Definition directories (r : Result (gmap string (list Row))) : list string :=
  match r with
  | Ok store => (map_to_list store).*1
  | Err _ => []
  end.

(** What is found below a path after a run. *)
Definition contents_at (path : string) (r : Result (gmap string (list Row)))
  : Result (gmap string (list Row)) :=
  match r with
  | Ok store => Ok (below path store)
  | Err e => Err e
  end.

(** The tables cell 2 reads, in the order it reads them. *)
Definition catalog_tables : list string :=
  ["yellow"; "taxizone"; "paymenttype"; "ratecode"].

(** A catalog in which the rate-code table is not registered. *)
Definition catalog_without_rate_codes (trips : list Row)
  : gmap string (gmap string DynamicFrame) :=
  {[ "nyctaxi" :=
       {[ "yellow" := {| dyf_fields := yellow_fields; dyf_records := trips |};
          "taxizone" := sample_zones;
          "paymenttype" := sample_payment_types ]} ]}.

(** Two runs that end the same way: both succeed, or both fail with the
    same error. *)
Definition same_outcome {A B} (r1 : Result A) (r2 : Result B) : Prop :=
  match r1, r2 with
  | Ok _, Ok _ => True
  | Err e1, Err e2 => e1 = e2
  | _, _ => False
  end.

(** The four join keys of a fact row are all there. *)
Definition keys_present (a : Row) : Prop :=
  Forall (λ k, cell k a ≠ VNull)
         ["pulocationid"; "dolocationid"; "payment_type"; "ratecodeid"].

#[global] Instance keys_present_dec a : Decision (keys_present a).
Proof. unfold keys_present. apply _. Defined.

(** The same tables, with other records in the fact table. *)
Definition with_trips (t : Tables) (trips : list Row) : Tables :=
  {| yellow_dyf := {| dyf_fields := dyf_fields (yellow_dyf t); dyf_records := trips |};
     taxi_zone_dyf := taxi_zone_dyf t;
     payment_type_dyf := payment_type_dyf t;
     rate_code_dyf := rate_code_dyf t |}.

(** The directory of a pick-up year and month. *)
Definition month_dir (y m : value) : string :=
  destination +:+ "pu_year=" +:+ hive_value y +:+ "/pu_month=" +:+ hive_value m +:+ "/".

(** The number of joined rows one fact row gives rise to. *)
Definition fan_out (t : Tables) (a : Row) : nat :=
  (length (pu_matches t a) * length (do_matches t a)
   * length (payment_matches t a) * length (rate_matches t a))%nat.

(** A store that holds the partition of an earlier run, and an object of
    another data set. *)
Definition stale_store : gmap string (list Row) :=
  {[ destination +:+ "pu_year=2018/pu_month=12/" := [[("pu_day", VInt 31)]];
     "s3://" +:+ your_bucket_name +:+ "/data/raw/nyctaxi/yellow/" := [example_trip] ]}.

(** A comparison function that orders its arguments as a total
    preorder. *)
Definition preorder_compare {A} (cmp : A → A → comparison) : Prop :=
  (∀ a b, cmp b a = CompOpp (cmp a b))
  ∧ (∀ a b c, cmp a b = Eq → cmp a c = cmp b c)
  ∧ (∀ a b c, cmp a b = Lt → cmp b c = Lt → cmp a c = Lt).

(** A trip whose pick-up location is not recorded. *)
Definition unknown_pickup_trip : Row :=
  set_cell "pulocationid" VNull example_trip.

(** Two analyses that end the same way: the same error, or frames with
    the same columns. *)
Definition same_schema (r1 r2 : Result DataFrame) : Prop :=
  match r1, r2 with
  | Ok d1, Ok d2 => columns d1 = columns d2
  | Err e1, Err e2 => e1 = e2
  | _, _ => False
  end.

(** The pick-up instant of a fact row, as line 182 reads it. *)
Definition pickup_instant `{!Engine} (a : Row) : value :=
  to_timestamp_value timestamp_format (cell "tpep_pickup_datetime" a).

(** The sample tables, with a yellow table that has no rate-code
    column. *)
Definition tables_without_ratecodeid : Tables :=
  {| yellow_dyf := {| dyf_fields := filter (λ c, c ≠ "ratecodeid") yellow_fields;
                      dyf_records := [example_trip] |};
     taxi_zone_dyf := sample_zones;
     payment_type_dyf := sample_payment_types;
     rate_code_dyf := sample_rate_codes |}.

(** Two runs that leave the same rows in every directory, in any
    order, or fail with the same error. *)
Definition same_contents (r1 r2 : Result (gmap string (list Row))) : Prop :=
  match r1, r2 with
  | Ok s1, Ok s2 => ∀ d, option_Forall2 (≡ₚ) (s1 !! d) (s2 !! d)
  | Err e1, Err e2 => e1 = e2
  | _, _ => False
  end.

#[global] Instance int_or_null_dec v : Decision (int_or_null v).
Proof. destruct v; simpl; apply _. Defined.

(** The four key columns of the yellow table hold bigint values or
    null, as the catalog declares them; the look-up keys do so after
    their mapping, so that [==] compares bigint with bigint. *)
Definition bigint_keys (t : Tables) : Prop :=
  Forall (λ a, Forall (λ k, int_or_null (cell k a))
                      ["pulocationid"; "dolocationid"; "payment_type"; "ratecodeid"])
         (rows (yellow_df t)).

#[global] Instance bigint_keys_dec t : Decision (bigint_keys t).
Proof. unfold bigint_keys. apply _. Defined.

(** A fact row with a match in the two zone look-ups and in the
    payment-type look-up. *)
Definition three_way_match (t : Tables) (a : Row) : Prop :=
  pu_matches t a ≠ [] ∧ do_matches t a ≠ [] ∧ payment_matches t a ≠ [].

#[global] Instance three_way_match_dec t a : Decision (three_way_match t a).
Proof. unfold three_way_match. apply _. Defined.





(** The parser the examples are run with. *)
#[global] Instance strict_engine : Engine := strict_parse_timestamp.

(** ** Cells *)

Section cells.
Implicit Types (r : Row) (name : string) (v : value).

Lemma names_toRow fields rec : names (toRow fields rec) = fields.
Proof.
  unfold names, toRow. rewrite <- list_fmap_compose.
  induction fields as [|c fields IH]; [done|]. by rewrite fmap_cons, IH.
Qed.

Lemma cell_toRow fields rec name :
  name ∈ fields → cell name (toRow fields rec) = cell name rec.
Proof.
  induction fields as [|c fields IH]; [by intros ?%elem_of_nil|].
  intros Hin. simpl. destruct (String.eqb_spec name c) as [->|Hne]; [done|].
  apply IH. apply elem_of_cons in Hin as [?|?]; [done|done].
Qed.

Lemma cell_missing name r : name ∉ names r → cell name r = VNull.
Proof.
  induction r as [|[n v] r IH]; [done|].
  intros Hnot. simpl. apply not_elem_of_cons in Hnot as [Hne Hnot].
  destruct (String.eqb_spec name n) as [->|_]; [done|]. by apply IH.
Qed.

Lemma cell_app_l name r1 r2 : name ∈ names r1 → cell name (r1 ++ r2) = cell name r1.
Proof.
  induction r1 as [|[n v] r1 IH]; [by intros ?%elem_of_nil|].
  intros Hin. simpl. destruct (String.eqb_spec name n) as [->|Hne]; [done|].
  apply IH. by apply elem_of_cons in Hin as [?|?].
Qed.

Lemma cell_app_r name r1 r2 : name ∉ names r1 → cell name (r1 ++ r2) = cell name r2.
Proof.
  induction r1 as [|[n v] r1 IH]; [done|].
  intros Hnot. simpl. apply not_elem_of_cons in Hnot as [Hne Hnot].
  destruct (String.eqb_spec name n) as [->|_]; [done|]. by apply IH.
Qed.

Lemma cell_set_cell_eq name v r : cell name (set_cell name v r) = v.
Proof.
  unfold set_cell. destruct (decide (name ∈ names r)) as [Hin|Hnot].
  - induction r as [|[n x] r IH]; [by apply elem_of_nil in Hin|].
    simpl. destruct (decide (n = name)) as [->|Hne]; simpl.
    + by rewrite String.eqb_refl.
    + destruct (String.eqb_spec name n) as [->|_]; [done|].
      apply IH. by apply elem_of_cons in Hin as [?|?].
  - rewrite cell_app_r by done. simpl. by rewrite String.eqb_refl.
Qed.

Lemma cell_set_cell_ne name other v r :
  name ≠ other → cell name (set_cell other v r) = cell name r.
Proof.
  intros Hne. unfold set_cell. destruct (decide (other ∈ names r)) as [Hin|Hnot].
  - clear Hin. induction r as [|[n x] r IH]; [done|].
    simpl. destruct (decide (n = other)) as [->|Hno]; simpl.
    + destruct (String.eqb_spec name other) as [->|_]; [done|]. apply IH.
    + destruct (String.eqb_spec name n) as [->|_]; [done|]. apply IH.
  - destruct (decide (name ∈ names r)) as [Hin'|Hnot'].
    + by apply cell_app_l.
    + rewrite cell_app_r by done. simpl.
      destruct (String.eqb_spec name other) as [->|_]; [done|].
      by rewrite cell_missing.
Qed.

Lemma cell_drop_cells name dropped r :
  name ∉ dropped → cell name (drop_cells dropped r) = cell name r.
Proof.
  intros Hkeep. unfold drop_cells. induction r as [|[n x] r IH]; [done|].
  rewrite filter_cons. simpl. destruct (decide (n ∉ dropped)) as [Hn|Hn]; simpl.
  - destruct (String.eqb_spec name n) as [->|_]; [done|]. apply IH.
  - destruct (String.eqb_spec name n) as [->|_]; [done|]. apply IH.
Qed.

Lemma names_drop_cells dropped r :
  names (drop_cells dropped r) = filter (λ c, c ∉ dropped) (names r).
Proof.
  unfold names, drop_cells. induction r as [|[n x] r IH]; [done|].
  rewrite fmap_cons, !filter_cons. simpl.
  destruct (decide (n ∉ dropped)); simpl; [f_equal|]; apply IH.
Qed.

End cells.

(** ** The engine on small inputs *)

Example parse_example :
  strict_parse_timestamp timestamp_format "2019-01-15 08:30:00"
  = Some (Timestamp 2019 1 15 8 30 0).
Proof. reflexivity. Qed.

Example parse_bad_month :
  strict_parse_timestamp timestamp_format "2019-13-15 08:30:00" = None.
Proof. reflexivity. Qed.

Example parse_leap_day :
  strict_parse_timestamp timestamp_format "2020-02-29 23:59:59"
  = Some (Timestamp 2020 2 29 23 59 59)
  ∧ strict_parse_timestamp timestamp_format "2019-02-29 23:59:59" = None.
Proof. split; reflexivity. Qed.

Example parse_other_layout :
  strict_parse_timestamp timestamp_format "15/01/2019 08:30" = None.
Proof. reflexivity. Qed.

Example parse_bigint_examples :
  parse_bigint "265" = Some 265 ∧ parse_bigint "-7" = Some (-7)
  ∧ parse_bigint "" = None ∧ parse_bigint "12a" = None.
Proof. repeat split; reflexivity. Qed.

Example hash_join_example :
  broadcast_hash_join "payment_type" "id"
    [[("trip", VInt 1); ("payment_type", VInt 2)];
     [("trip", VInt 2); ("payment_type", VNull)];
     [("trip", VInt 3); ("payment_type", VInt 7)]]
    [named 1 "Credit card"; named 2 "Cash"]
  = [[("trip", VInt 1); ("payment_type", VInt 2); ("id", VInt 2); ("name", VStr "Cash")]].
Proof. reflexivity. Qed.

Example withColumn_replaces :
  withColumn "a" (col "b") {| columns := ["a"; "b"]; rows := [[("a", VInt 1); ("b", VInt 2)]] |}
  = Ok {| columns := ["a"; "b"]; rows := [[("a", VInt 2); ("b", VInt 2)]] |}.
Proof. reflexivity. Qed.

Example withColumn_unknown_column :
  withColumn "a" (year (col "c")) {| columns := ["a"; "b"]; rows := [] |}
  = Err (AnalysisException "cannot resolve" "c").
Proof. reflexivity. Qed.

Example notebook_missing_table :
  notebook ∅ ∅ = Err (EntityNotFound "nyctaxi" "yellow").
Proof. reflexivity. Qed.

Example notebook_sample_run :
  directories (notebook (sample_catalog [example_trip; unparsable_trip]) ∅)
  = [destination
       +:+ "pu_year=__HIVE_DEFAULT_PARTITION__/pu_month=__HIVE_DEFAULT_PARTITION__/";
     destination +:+ "pu_year=2019/pu_month=1/"].
Proof. vm_compute. reflexivity. Qed.

(** ** Resolution of column names *)

Section resolution.
Context {engine : Engine}.

Lemma filter_eq_absent (name : string) (cols : list string) :
  name ∉ cols → filter (λ c, c = name) cols = [].
Proof.
  induction cols as [|c cols IH]; [done|].
  intros [Hne Hnot]%not_elem_of_cons. rewrite filter_cons.
  destruct (decide (c = name)) as [->|_]; [done|]. by apply IH.
Qed.

Lemma filter_eq_present (name : string) (cols : list string) :
  NoDup cols → name ∈ cols → filter (λ c, c = name) cols = [name].
Proof.
  induction 1 as [|c cols Hc Hnd IH]; [by intros ?%elem_of_nil|].
  intros Hin. rewrite filter_cons. destruct (decide (c = name)) as [->|Hne].
  - by rewrite filter_eq_absent.
  - apply IH. apply elem_of_cons in Hin as [?|?]; [congruence|done].
Qed.

Lemma resolve_app_l (fields tail : list string) name :
  NoDup fields → name ∈ fields → name ∉ tail → resolve name (fields ++ tail) = Ok ().
Proof.
  intros Hnd Hin Hnot. unfold resolve.
  by rewrite filter_app, filter_eq_present, filter_eq_absent.
Qed.

Lemma resolve_app_r (fields tail : list string) name :
  name ∉ fields → resolve name tail = Ok () → resolve name (fields ++ tail) = Ok ().
Proof.
  intros Hnot Htail. unfold resolve in *.
  by rewrite filter_app, filter_eq_absent.
Qed.

Lemma resolve_present (cols : list string) name :
  NoDup cols → name ∈ cols → resolve name cols = Ok ().
Proof. intros ??. unfold resolve. by rewrite filter_eq_present. Qed.

Lemma set_name_fresh name cols : name ∉ cols → set_name name cols = cols ++ [name].
Proof. intros ?. unfold set_name. by destruct (decide (name ∈ cols)). Qed.

Lemma withColumn_fresh name c df :
  analyze c (columns df) = Ok () → name ∉ columns df →
  withColumn name c df
  = Ok {| columns := columns df ++ [name];
          rows := (λ r, set_cell name (eval c r) r) <$> rows df |}.
Proof. intros Hc Hfresh. unfold withColumn. by rewrite Hc, set_name_fresh. Qed.

Lemma fact_schema_ok_spec fields :
  fact_schema_ok fields = true →
  NoDup fields ∧ Forall (λ c, c ∈ fields) required_columns
  ∧ Forall (λ c, c ∉ fields) (lookup_columns ++ derived_columns).
Proof.
  unfold fact_schema_ok. rewrite !andb_true_iff, !bool_decide_eq_true. tauto.
Qed.

End resolution.

(** The ways of a name in or out of a concrete list of names. *)
Ltac names_tac :=
  repeat match goal with
         | H : Forall _ (_ :: _) |- _ => apply Forall_cons in H; destruct H as [? ?]
         | H : Forall _ (_ ++ _) |- _ => simpl in H
         end;
  rewrite ?not_elem_of_app, ?not_elem_of_cons, ?elem_of_app, ?elem_of_cons;
  first [ assumption
        | apply not_elem_of_nil
        | reflexivity
        | done
        | repeat split; first [assumption | apply not_elem_of_nil | done] ].

Section resolution_2.
Context {engine : Engine}.

Lemma enrich_ok J t :
  fact_schema_ok (dyf_fields (yellow_dyf t)) = true →
  enrich (unhinted J) t
  = Ok {| columns := output_columns (dyf_fields (yellow_dyf t));
          rows := drop_cells dropped_columns
                  <$> merge_sort (row_le ["pu_year"; "pu_month"; "pu_day"])
                        (derive <$> joined J t) |}.
Proof.
  intros (Hnd & Hreq & Hfresh)%fact_schema_ok_spec.
  set (fields := dyf_fields (yellow_dyf t)) in *.
  unfold required_columns, lookup_columns, derived_columns in *.
  unfold enrich, eq_cond, getitem.
  change (columns (yellow_df t)) with fields.
  repeat (rewrite (resolve_present fields) by names_tac; simpl).
  set (j4 := join _ _ _).
  assert (j4 = {| columns := fields ++ lookup_columns; rows := joined J t |}) as ->.
  { unfold j4, join, joined, unhinted. simpl. f_equal. by rewrite <- !app_assoc. }
  unfold lookup_columns.
  rewrite withColumn_fresh; simpl;
    [rewrite <- app_assoc; simpl | apply resolve_app_l; names_tac | names_tac].
  rewrite withColumn_fresh; simpl;
    [rewrite <- app_assoc; simpl | apply resolve_app_l; names_tac | names_tac].
  rewrite withColumn_fresh; simpl;
    [rewrite <- app_assoc; simpl | apply resolve_app_r; names_tac | names_tac].
  rewrite withColumn_fresh; simpl;
    [rewrite <- app_assoc; simpl | apply resolve_app_r; names_tac | names_tac].
  rewrite withColumn_fresh; simpl;
    [rewrite <- app_assoc; simpl | apply resolve_app_r; names_tac | names_tac].
  unfold orderBy. simpl resolve_all.
  do 3 (rewrite resolve_app_r by names_tac; simpl).
  unfold drop, output_columns. simpl.
  rewrite filter_app, <- !list_fmap_compose. reflexivity.
Qed.

End resolution_2.

(** ** Joins *)

Section expansion.
Context {engine : Engine}.

Lemma list_bind_assoc {A B C} (f : A → list B) (g : B → list C) (l : list A) :
  (l ≫= f) ≫= g = l ≫= (λ a, f a ≫= g).
Proof.
  induction l as [|a l IH]; [done|].
  by rewrite !bind_cons, bind_app, IH.
Qed.


Section joins.
Context (lk rk : string).
Implicit Types (a b : Row) (ls rs : list Row) (k : value).

Lemma build_hash_lookup rs k :
  default [] (build_hash rk rs !! k) = filter (λ b, cell rk b = k) rs.
Proof.
  induction rs as [|b rs IH]; [done|].
  simpl. rewrite filter_cons. destruct (decide (cell rk b = k)) as [->|Hne].
  - by rewrite lookup_insert_eq, <- IH.
  - by rewrite lookup_insert_ne.
Qed.

Lemma matches_null rs : matches rk rs VNull = [].
Proof.
  unfold matches. apply elem_of_nil_inv. intros b [[Hnull _] _]%list_elem_of_filter.
  done.
Qed.

Lemma probe_matches rs a :
  probe lk (build_hash rk rs) a = (a ++.) <$> matches rk rs (cell lk a).
Proof.
  unfold probe. destruct (cell lk a) as [|z|s|ts] eqn:Hk;
    [by rewrite matches_null|..];
    rewrite build_hash_lookup; f_equal; unfold matches;
    apply list_filter_iff; intros b; unfold sql_eq;
    (split; [by intros ->|by intros [_ <-]]).
Qed.

Lemma broadcast_hash_join_inner ls rs :
  broadcast_hash_join lk rk ls rs = inner_join lk rk ls rs.
Proof.
  unfold broadcast_hash_join, inner_join.
  apply list_bind_ext; [|done]. intros a. apply probe_matches.
Qed.

Lemma inner_join_Permutation ls ls' rs :
  ls ≡ₚ ls' → inner_join lk rk ls rs ≡ₚ inner_join lk rk ls' rs.
Proof. intros Hp. unfold inner_join. by rewrite Hp. Qed.

End joins.

(** A fact row of the frame carries the fields of the catalog table. *)
Lemma yellow_row_names t a :
  a ∈ rows (yellow_df t) → names a = dyf_fields (yellow_dyf t).
Proof.
  unfold yellow_df, cache, repartition, toDF. simpl.
  intros (rec & -> & _)%list_elem_of_fmap. apply names_toRow.
Qed.

Lemma joined_inner t :
  Forall (λ c, c ∈ dyf_fields (yellow_dyf t)) required_columns →
  joined inner_join t = rows (yellow_df t) ≫= expand t.
Proof.
  intros Hreq. unfold joined, inner_join. rewrite !list_bind_assoc.
  apply Forall_bind_ext, Forall_forall. intros a Ha%yellow_row_names.
  unfold required_columns in Hreq.
  assert (∀ c r, c ∈ dyf_fields (yellow_dyf t) → cell c (a ++ r) = cell c a) as Hcell.
  { intros c r Hc. apply cell_app_l. by rewrite Ha. }
  unfold expand, pu_matches, do_matches, payment_matches, rate_matches.
  rewrite list_fmap_bind, ?list_bind_assoc.
  apply list_bind_ext; [|done]. intros b1. simpl.
  rewrite Hcell by names_tac.
  rewrite list_fmap_bind, ?list_bind_assoc.
  apply list_bind_ext; [|done]. intros b2. simpl.
  rewrite <- app_assoc, Hcell, app_assoc by names_tac.
  rewrite list_fmap_bind.
  apply list_bind_ext; [|done]. intros b3. simpl.
  by rewrite <- !app_assoc, Hcell, !app_assoc by names_tac.
Qed.

Lemma elem_of_expand t a r :
  r ∈ expand t a ↔
  ∃ b1 b2 b3 b4, b1 ∈ pu_matches t a ∧ b2 ∈ do_matches t a
    ∧ b3 ∈ payment_matches t a ∧ b4 ∈ rate_matches t a
    ∧ r = (((a ++ b1) ++ b2) ++ b3) ++ b4.
Proof.
  unfold expand. split.
  - intros (b1 & (b2 & (b3 & (b4 & -> & H4)%list_elem_of_fmap & H3)%list_elem_of_bind
                     & H2)%list_elem_of_bind & H1)%list_elem_of_bind.
    by exists b1, b2, b3, b4.
  - intros (b1 & b2 & b3 & b4 & H1 & H2 & H3 & H4 & ->).
    apply list_elem_of_bind. exists b1. split; [|done].
    apply list_elem_of_bind. exists b2. split; [|done].
    apply list_elem_of_bind. exists b3. split; [|done].
    apply list_elem_of_fmap. by exists b4.
Qed.

(** ** Unique keys *)






Lemma filter_all {A} (P : A → Prop) `{!∀ a, Decision (P a)} (l : list A) :
  Forall P l → filter P l = l.
Proof.
  induction 1 as [|a l Ha _ IH]; [done|]. by rewrite filter_cons_True, IH.
Qed.



End expansion.

(** ** The enriched frame in closed form *)

Section closed_form.
Context {engine : Engine}.

Lemma joined_broadcast t : joined broadcast_hash_join t = joined inner_join t.
Proof. unfold joined. by rewrite !broadcast_hash_join_inner. Qed.

Lemma yellow_opt_df_ok t :
  fact_schema_ok (dyf_fields (yellow_dyf t)) = true →
  yellow_opt_df t
  = Ok {| columns := output_columns (dyf_fields (yellow_dyf t));
          rows := drop_cells dropped_columns
                  <$> merge_sort (row_le ["pu_year"; "pu_month"; "pu_day"])
                        (derive <$> joined inner_join t) |}.
Proof.
  intros Hok. change (yellow_opt_df t) with (enrich (unhinted broadcast_hash_join) t).
  by rewrite enrich_ok, joined_broadcast.
Qed.

Lemma resolve_Ok_elem name cols : resolve name cols = Ok () → name ∈ cols.
Proof.
  unfold resolve. destruct (filter _ cols) as [|c [|]] eqn:E; try done. intros _.
  assert (c ∈ filter (λ c, c = name) cols) as [<- ?]%list_elem_of_filter
    by (rewrite E; apply list_elem_of_here).
  done.
Qed.


Lemma eq_cond_Ok left l right r on :
  eq_cond left l right r = Ok on → l ∈ columns left ∧ on = (l, r).
Proof.
  unfold eq_cond, getitem.
  destruct (resolve l (columns left)) as [[]|e] eqn:Hl; simpl; [|done].
  destruct (resolve r (columns right)) as [[]|e] eqn:Hr; simpl; [|done].
  intros [= <-]. split; [by apply resolve_Ok_elem|done].
Qed.

Lemma elem_of_set_name_inv c name cols :
  c ∈ set_name name cols → c = name ∨ c ∈ cols.
Proof.
  unfold set_name. destruct (decide (name ∈ cols)); [by right|].
  intros [?|Hc%list_elem_of_singleton]%elem_of_app; [by right|by left].
Qed.

(** What every run that produces the enriched frame has read and
    produced, whatever the fact schema. *)
Lemma yellow_opt_run t df :
  yellow_opt_df t = Ok df →
  Forall (λ c, c ∈ dyf_fields (yellow_dyf t)) required_columns
  ∧ columns df
    = filter (λ c, c ∉ dropped_columns)
        (set_name "pu_day" (set_name "pu_month" (set_name "pu_year"
          (set_name "do_datetime" (set_name "pu_datetime"
            (dyf_fields (yellow_dyf t) ++ lookup_columns))))))
  ∧ rows df
    = drop_cells dropped_columns
      <$> merge_sort (row_le ["pu_year"; "pu_month"; "pu_day"])
            (derive <$> joined inner_join t).
Proof.
  unfold yellow_opt_df, enrich.
  destruct (eq_cond (yellow_df t) "pulocationid" _ _) as [on1|e] eqn:H1; simpl; [|done].
  destruct (eq_cond (yellow_df t) "dolocationid" _ _) as [on2|e] eqn:H2; simpl; [|done].
  destruct (eq_cond (yellow_df t) "payment_type" _ _) as [on3|e] eqn:H3; simpl; [|done].
  destruct (eq_cond (yellow_df t) "ratecodeid" _ _) as [on4|e] eqn:H4; simpl; [|done].
  apply eq_cond_Ok in H1 as [H1 ->], H2 as [H2 ->], H3 as [H3 ->], H4 as [H4 ->].
  unfold withColumn, orderBy. simpl.
  rewrite <- !app_assoc. simpl.
  destruct (resolve "tpep_pickup_datetime" _) as [[]|?] eqn:Hpick; simpl; [|done].
  destruct (resolve "tpep_dropoff_datetime" _) as [[]|?] eqn:Hdrop; simpl; [|done].
  repeat match goal with
         | |- context [resolve ?n ?cols] =>
             destruct (resolve n cols) as [[]|?]; simpl; [|done]
         end.
  intros [= <-]. simpl. split; [|split; [done|]].
  - apply resolve_Ok_elem, elem_of_app in Hpick as [Hpick|Hpick];
      [|by exfalso; revert Hpick; compute_done].
    apply resolve_Ok_elem, elem_of_set_name_inv in Hdrop as [Hdrop|Hdrop]; [done|].
    apply elem_of_app in Hdrop as [Hdrop|Hdrop];
      [|by exfalso; revert Hdrop; compute_done].
    unfold required_columns. by repeat (apply Forall_cons; split).
  - rewrite !broadcast_hash_join_inner.
    match goal with
    | |- context [inner_join "ratecodeid" "ratecode_id" ?a ?b] =>
        change (inner_join "ratecodeid" "ratecode_id" a b) with (joined inner_join t)
    end.
    by rewrite <- !list_fmap_compose.
Qed.

Lemma yellow_opt_rows_Permutation t df :
  yellow_opt_df t = Ok df →
  rows df ≡ₚ finish <$> (rows (yellow_df t) ≫= expand t).
Proof.
  intros (Hreq & _ & ->)%yellow_opt_run.
  by rewrite merge_sort_Permutation, <- list_fmap_compose, joined_inner.
Qed.

(** On a fact schema that passes [fact_schema_ok] the run succeeds. *)
Lemma yellow_opt_df_total t :
  fact_schema_ok (dyf_fields (yellow_dyf t)) = true → ∃ df, yellow_opt_df t = Ok df.
Proof. intros Hok. eexists. by apply yellow_opt_df_ok. Qed.

(** ** C1 *)

End closed_form.


Section closed_form_2.
Context {engine : Engine}.


End closed_form_2.


(** ** C2 *)

Section rate_codes.
Context {engine : Engine}.

(** C2: the notebook loads the rate-code table and then maps the
    rate-code look-up from the payment-type table.  Whatever the
    rate-code table holds, [rate_code_df] and the enriched frame are the
    same.  On the sample tables rate code 1 is "Standard rate", and the
    look-up and the output row of the example trip carry the payment
    type's "Credit card" as [ratecode_name]; a trip at rate code 99,
    which the rate-code table lists, has no output row. *)
Theorem rate_code_lookup_reads_payment_types :
  (∀ t rate_codes,
     let t' := {| yellow_dyf := yellow_dyf t; taxi_zone_dyf := taxi_zone_dyf t;
                  payment_type_dyf := payment_type_dyf t;
                  rate_code_dyf := rate_codes |} in
     rate_code_df t' = rate_code_df t ∧ yellow_opt_df t' = yellow_opt_df t)
  ∧ dyf_records (rate_code_dyf (sample_tables [example_trip]))
    = [named 1 "Standard rate"; named 2 "JFK"; named 99 "Unknown"]
  ∧ rows (rate_code_df (sample_tables [example_trip]))
    = [[("ratecode_id", VInt 1); ("ratecode_name", VStr "Credit card")];
       [("ratecode_id", VInt 2); ("ratecode_name", VStr "Cash")];
       [("ratecode_id", VInt 3); ("ratecode_name", VStr "No charge")]]
  ∧ (∃ df, yellow_opt_df (sample_tables [example_trip]) = Ok df
       ∧ cell "ratecode_name" <$> rows df = [VStr "Credit card"])
  ∧ (∃ df, yellow_opt_df (sample_tables [rate_99_trip]) = Ok df ∧ rows df = []).
Proof.
  split; [by intros [] ?|]. split; [done|]. split; [done|].
  split; eexists; (split; [vm_compute; reflexivity|done]).
Qed.

(** ** C3 *)

End rate_codes.


(** ** The cells of an output row *)

Ltac cells_tac :=
  repeat first [ rewrite cell_set_cell_eq
               | rewrite cell_set_cell_ne by done
               | rewrite cell_drop_cells by compute_done ].

Section derived_cells.
Context {engine : Engine}.

Lemma finish_pu_datetime j :
  cell "pu_datetime" (finish j)
  = to_timestamp_value timestamp_format (cell "tpep_pickup_datetime" j).
Proof. unfold finish, derive. simpl. by cells_tac. Qed.

Lemma finish_do_datetime j :
  cell "do_datetime" (finish j)
  = to_timestamp_value timestamp_format (cell "tpep_dropoff_datetime" j).
Proof. unfold finish, derive. simpl. by cells_tac. Qed.

Lemma finish_pu_year j :
  cell "pu_year" (finish j) = field_of ts_year (cell "pu_datetime" (finish j)).
Proof. unfold finish, derive. simpl. by cells_tac. Qed.

Lemma finish_pu_month j :
  cell "pu_month" (finish j) = field_of ts_month (cell "pu_datetime" (finish j)).
Proof. unfold finish, derive. simpl. by cells_tac. Qed.

Lemma finish_pu_day j :
  cell "pu_day" (finish j) = field_of ts_day (cell "pu_datetime" (finish j)).
Proof. unfold finish, derive. simpl. by cells_tac. Qed.

Lemma finish_kept name j :
  name ∉ dropped_columns → name ∉ derived_columns →
  cell name (finish j) = cell name j.
Proof.
  intros Hkeep Hd. unfold finish, derive. rewrite cell_drop_cells by done.
  unfold derived_columns in Hd. rewrite !not_elem_of_cons in Hd.
  destruct Hd as (? & ? & ? & ? & ? & _). simpl.
  by rewrite !cell_set_cell_ne by done.
Qed.

Lemma field_of_null f : field_of f VNull = VNull.
Proof. done. Qed.

Lemma to_timestamp_unparsable fmt s :
  parse_timestamp fmt s = None → to_timestamp_value fmt (VStr s) = VNull.
Proof. intros H. simpl. by rewrite H. Qed.

(** The output rows are the finished joined rows of the fact rows. *)
Lemma elem_of_yellow_opt_rows t df r :
  yellow_opt_df t = Ok df →
  r ∈ rows df ↔ ∃ a j, a ∈ rows (yellow_df t) ∧ j ∈ expand t a ∧ r = finish j.
Proof.
  intros Hdf. rewrite (yellow_opt_rows_Permutation t df) by done.
  split.
  - intros (j & -> & (a & Hj & Ha)%list_elem_of_bind)%list_elem_of_fmap. eauto.
  - intros (a & j & Ha & Hj & ->). apply list_elem_of_fmap. exists j.
    split; [done|]. apply list_elem_of_bind. eauto.
Qed.

Lemma expand_nonempty t a : full_match t a ↔ ∃ j, j ∈ expand t a.
Proof.
  split.
  - intros (H1 & H2 & H3 & H4).
    destruct (pu_matches t a) as [|b1 ?] eqn:E1; [done|].
    destruct (do_matches t a) as [|b2 ?] eqn:E2; [done|].
    destruct (payment_matches t a) as [|b3 ?] eqn:E3; [done|].
    destruct (rate_matches t a) as [|b4 ?] eqn:E4; [done|].
    exists ((((a ++ b1) ++ b2) ++ b3) ++ b4). apply elem_of_expand.
    exists b1, b2, b3, b4. rewrite E1, E2, E3, E4.
    repeat split; apply list_elem_of_here.
  - intros (j & (b1 & b2 & b3 & b4 & H1 & H2 & H3 & H4 & _)%elem_of_expand).
    unfold full_match. repeat split; intros E.
    + rewrite E in H1. by apply elem_of_nil in H1.
    + rewrite E in H2. by apply elem_of_nil in H2.
    + rewrite E in H3. by apply elem_of_nil in H3.
    + rewrite E in H4. by apply elem_of_nil in H4.
Qed.

Lemma expand_fact_cell t a j name :
  a ∈ rows (yellow_df t) → j ∈ expand t a →
  name ∈ dyf_fields (yellow_dyf t) → cell name j = cell name a.
Proof.
  intros Ha%yellow_row_names (b1 & b2 & b3 & b4 & _ & _ & _ & _ & ->)%elem_of_expand Hn.
  rewrite <- !app_assoc. apply cell_app_l. by rewrite Ha.
Qed.

Lemma expand_derived_timestamps t a j :
  Forall (λ c, c ∈ dyf_fields (yellow_dyf t)) required_columns →
  a ∈ rows (yellow_df t) → j ∈ expand t a → derived_timestamps a (finish j).
Proof.
  intros Hreq Ha Hj. unfold derived_timestamps, required_columns in *.
  rewrite finish_pu_datetime, finish_do_datetime at 1.
  rewrite !(expand_fact_cell t a j) by (done || names_tac).
  repeat split; auto using finish_pu_year, finish_pu_month, finish_pu_day.
Qed.

(** ** C4 *)



End derived_cells.


Example unparsable_trip_row :
  ∃ df, yellow_opt_df (sample_tables [unparsable_trip]) = Ok df
    ∧ (λ r, (cell "pu_datetime" r, cell "do_datetime" r, cell "pu_year" r,
             cell "pu_month" r, cell "pu_day" r, cell "pu_zone" r)) <$> rows df
      = [(VNull, VNull, VNull, VNull, VNull, VStr "Newark Airport")].
Proof. eexists. split; [vm_compute; reflexivity|done]. Qed.

(** ** C9 *)

Section strategies.
Context {engine : Engine}.

(** C9: the Parquet block size the writer is given is [blockSize], which
    is 1024 * 1024 * 32 bytes, 32MB, and lies between 16MB and 64MB. *)
Theorem block_size_is_32MB :
  blockSize = 1024 * 1024 * 32
  ∧ blockSize = 32 * (1024 * 1024)
  ∧ 16 * (1024 * 1024) ≤ blockSize ≤ 64 * (1024 * 1024)
  ∧ ∀ df, w_format (yellow_opt_writer df) = "parquet"
          ∧ w_options (yellow_opt_writer df) = [("parquet.block.size", blockSize)].
Proof. unfold blockSize. repeat split; try done; lia. Qed.

(** ** C7 *)

Lemma same_frame_refl d : same_frame d d.
Proof. by split. Qed.

Lemma bind_same (r1 r2 : Result DataFrame) (f g : DataFrame → Result DataFrame) :
  same_result r1 r2 →
  (∀ d1 d2, same_frame d1 d2 → same_result (f d1) (g d2)) →
  same_result (r1 ≫= f) (r2 ≫= g).
Proof.
  destruct r1 as [d1|e1], r2 as [d2|e2]; simpl; try done. intros H Hf. by apply Hf.
Qed.

Lemma withColumn_same name c d1 d2 :
  same_frame d1 d2 → same_result (withColumn name c d1) (withColumn name c d2).
Proof.
  intros [Hc Hr]. unfold withColumn. rewrite Hc.
  destruct (analyze c (columns d2)) as [[]|e]; simpl; [|done].
  split; simpl; [done|]. by rewrite Hr.
Qed.

Lemma orderBy_same keys d1 d2 :
  same_frame d1 d2 → same_result (orderBy keys d1) (orderBy keys d2).
Proof.
  intros [Hc Hr]. unfold orderBy. rewrite Hc.
  destruct (resolve_all keys (columns d2)) as [[]|e]; simpl; [|done].
  split; simpl; [done|]. by rewrite !merge_sort_Permutation.
Qed.

Lemma drop_same dropped d1 d2 :
  same_frame d1 d2 → same_frame (drop dropped d1) (drop dropped d2).
Proof. intros [Hc Hr]. split; simpl; [by rewrite Hc|by rewrite Hr]. Qed.

Lemma join_same J1 J2 l1 l2 r on :
  implements_inner_join J1 → implements_inner_join J2 →
  same_frame l1 l2 →
  same_frame (join l1 (unhinted J1 r) on) (join l2 (unhinted J2 r) on).
Proof.
  intros H1 H2 [Hc Hr]. split; simpl; [by rewrite Hc|].
  etrans; [apply H1|]. etrans; [|symmetry; apply H2].
  by apply inner_join_Permutation.
Qed.

Lemma broadcast_hash_join_implements : implements_inner_join broadcast_hash_join.
Proof. intros lk rk ls rs. by rewrite broadcast_hash_join_inner. Qed.

Lemma bind_nil_const {A B} (l : list A) : l ≫= (λ _, @nil B) = [].
Proof. induction l as [|a l IH]; [done|]. by rewrite bind_cons, IH. Qed.

Lemma bind_insert_once {A} (x : A) (k : nat) (F : nat → list A) (ks : list nat) :
  NoDup ks → k ∈ ks →
  ks ≫= (λ i, if decide (k = i) then x :: F i else F i) ≡ₚ x :: (ks ≫= F).
Proof.
  induction 1 as [|i ks Hi Hnd IH]; [by intros ?%elem_of_nil|].
  intros Hk. rewrite !bind_cons. destruct (decide (k = i)) as [->|Hne].
  - simpl. do 2 f_equiv. apply reflexive_eq, Forall_bind_ext, Forall_forall.
    intros j Hj. destruct (decide (i = j)) as [->|_]; done.
  - apply elem_of_cons in Hk as [?|Hk]; [done|].
    rewrite IH by done. by rewrite Permutation_middle.
Qed.

Lemma shuffle_Permutation {A} (g : A → nat) (n : nat) (l : list A) :
  (∀ a, g a < n)%nat →
  seq 0 n ≫= (λ i, filter (λ a, g a = i) l) ≡ₚ l.
Proof.
  intros Hg. induction l as [|a l IH]; [apply reflexive_eq, bind_nil_const|].
  trans (a :: (seq 0 n ≫= λ i, filter (λ a, g a = i) l)); [|by rewrite IH].
  rewrite <- (bind_insert_once a (g a)).
  - apply reflexive_eq, list_bind_ext; [|done]. intros i. rewrite filter_cons.
    by destruct (decide (g a = i)).
  - apply NoDup_seq.
  - apply elem_of_seq. specialize (Hg a). lia.
Qed.

Lemma shuffled_matches p n lk rk a rs :
  matches rk (shuffle p n rk (p (cell lk a) mod n)%nat rs) (cell lk a)
  = matches rk rs (cell lk a).
Proof.
  unfold matches, shuffle. rewrite list_filter_filter.
  apply list_filter_iff. intros b. split; [by intros [? _]|].
  intros [Hk E]. split; [done|]. by rewrite <- E.
Qed.

Lemma shuffled_hash_join_implements p n :
  n ≠ 0%nat → implements_inner_join (shuffled_hash_join p n).
Proof.
  intros Hn lk rk ls rs. unfold shuffled_hash_join.
  trans (seq 0 n ≫= λ i, filter (λ a, (p (cell lk a) mod n)%nat = i) ls
                          ≫= λ a, (a ++.) <$> matches rk rs (cell lk a)).
  - apply reflexive_eq, list_bind_ext; [|done]. intros i.
    rewrite broadcast_hash_join_inner. unfold inner_join.
    apply Forall_bind_ext, Forall_forall. intros a [<- _]%list_elem_of_filter.
    by rewrite shuffled_matches.
  - rewrite <- list_bind_assoc. unfold inner_join.
    rewrite (shuffle_Permutation (λ a, (p (cell lk a) mod n)%nat)); [done|].
    intros a. by apply Nat.mod_upper_bound.
Qed.

(** C7: whatever strategy executes the four joins, as long as it
    computes the inner join on the key pair, the notebook's result with
    its four broadcast joins is the same: the same error, or the same
    columns and the same rows (up to the order of rows that the sort does
    not decide). *)
Theorem broadcast_is_only_a_strategy (J : JoinStrategy) t :
  implements_inner_join J →
  same_result (yellow_opt_df t) (enrich (unhinted J) t).
Proof.
  intros HJ. pose proof broadcast_hash_join_implements as HB.
  change (yellow_opt_df t) with (enrich (unhinted broadcast_hash_join) t).
  unfold enrich.
  destruct (eq_cond (yellow_df t) "pulocationid" _ _) as [on1|e]; simpl; [|done].
  destruct (eq_cond (yellow_df t) "dolocationid" _ _) as [on2|e]; simpl; [|done].
  destruct (eq_cond (yellow_df t) "payment_type" _ _) as [on3|e]; simpl; [|done].
  destruct (eq_cond (yellow_df t) "ratecodeid" _ _) as [on4|e]; simpl; [|done].
  apply bind_same.
  { apply withColumn_same. do 4 (apply join_same; [done..|]). apply same_frame_refl. }
  intros ???. apply bind_same; [by apply withColumn_same|].
  intros ???. apply bind_same; [by apply withColumn_same|].
  intros ???. apply bind_same; [by apply withColumn_same|].
  intros ???. apply bind_same; [by apply withColumn_same|].
  intros ???. apply bind_same; [by apply orderBy_same|].
  intros ???. simpl. by apply drop_same.
Qed.

End strategies.

Lemma broadcast_is_only_a_strategy_witness :
  same_result (yellow_opt_df sample_run)
              (enrich (unhinted (shuffled_hash_join sample_partitioner 200)) sample_run).
Proof.
  apply (broadcast_is_only_a_strategy (shuffled_hash_join sample_partitioner 200)
           sample_run).
  apply shuffled_hash_join_implements. lia.
Defined.

(** ** The object store *)

Section overwrite.
Context {engine : Engine}.

Lemma prefix_app (p s : string) : String.prefix p (p +:+ s) = true.
Proof.
  induction p as [|c p IH]; [by destruct s|].
  simpl. by destruct (Ascii.ascii_dec c c).
Qed.

Section store.
Context (path : string).
Implicit Types (keys : list string) (r : Row) (rs : list Row) (d : string)
  (store new : gmap string (list Row)).

Lemma under_partition_dir keys r : under path (partition_dir path keys r).
Proof. apply prefix_app. Qed.

Lemma layout_lookup keys rs d :
  layout path keys rs !! d
  = match filter (λ r, partition_dir path keys r = d) rs with
    | [] => None
    | g => Some (drop_cells keys <$> g)
    end.
Proof.
  induction rs as [|r rs IH]; [done|].
  simpl. rewrite filter_cons. destruct (decide (partition_dir path keys r = d)) as [->|Hne].
  - rewrite lookup_insert_eq, IH.
    by destruct (filter _ rs).
  - by rewrite lookup_insert_ne.
Qed.

Lemma layout_under keys rs d :
  is_Some (layout path keys rs !! d) → under path d.
Proof.
  rewrite layout_lookup. destruct (filter _ rs) as [|r g] eqn:E.
  - by intros [? ?].
  - intros _. assert (r ∈ filter (λ r, partition_dir path keys r = d) rs) as Hr
      by (rewrite E; apply list_elem_of_here).
    apply list_elem_of_filter in Hr as [<- _]. apply under_partition_dir.
Qed.

Lemma lookup_outside store d :
  outside path store !! d = if decide (under path d) then None else store !! d.
Proof.
  unfold outside. rewrite map_lookup_filter.
  destruct (store !! d) as [x|]; simpl; [|by destruct (decide _)].
  destruct (decide (under path d)); by simplify_option_eq.
Qed.

Lemma lookup_below store d :
  below path store !! d = if decide (under path d) then store !! d else None.
Proof.
  unfold below. rewrite map_lookup_filter.
  destruct (store !! d) as [x|]; simpl; [|by destruct (decide _)].
  destruct (decide (under path d)); by simplify_option_eq.
Qed.

Lemma overwrite_twice new store :
  new ∪ outside path (new ∪ outside path store) = new ∪ outside path store.
Proof.
  apply map_eq. intros d. rewrite !lookup_union, !lookup_outside, lookup_union.
  rewrite lookup_outside.
  destruct (new !! d), (decide (under path d)), (store !! d); done.
Qed.

Lemma below_overwrite new store :
  below path (new ∪ outside path store) = below path new.
Proof.
  apply map_eq. intros d. rewrite !lookup_below, lookup_union, lookup_outside.
  destruct (decide (under path d)); [|done]. by destruct (new !! d).
Qed.

End store.

Lemma save_yellow_opt df store :
  save destination (yellow_opt_writer df) store
  = match save destination (yellow_opt_writer df) ∅ with
    | Ok _ => Ok (layout destination ["pu_year"; "pu_month"] (rows df)
                  ∪ outside destination store)
    | Err e => Err e
    end.
Proof.
  unfold save, yellow_opt_writer. simpl.
  destruct (decide (NoDup (columns df))); simpl; [|done].
  destruct (resolve "pu_year" (columns df)); simpl; [|done].
  destruct (resolve "pu_month" (columns df)); simpl; [|done].
  by destruct (decide (filter _ (columns df) = [])).
Qed.

(** ** C6 *)

(** C6: a second run of the notebook against the same catalog, on the
    store the first run left, leaves that store unchanged (and fails the
    same way when the first run fails); and what a run leaves below the
    destination does not depend on what the store held before: the write
    replaces it. *)
Theorem notebook_idempotent catalog store :
  notebook catalog store ≫= notebook catalog = notebook catalog store
  ∧ ∀ store', contents_at destination (notebook catalog store')
              = contents_at destination (notebook catalog store).
Proof.
  unfold notebook. destruct (load_tables catalog) as [t|e]; simpl; [|done].
  unfold write_yellow_opt. destruct (yellow_opt_df t) as [df|e]; simpl; [|done].
  split.
  - rewrite (save_yellow_opt df store).
    destruct (save destination (yellow_opt_writer df) ∅) as [s0|e] eqn:Hsave; simpl; [|done].
    by rewrite save_yellow_opt, Hsave, overwrite_twice.
  - intros store'. rewrite (save_yellow_opt df store), (save_yellow_opt df store').
    destruct (save destination (yellow_opt_writer df) ∅) as [s0|e]; simpl; [|done].
    by rewrite !below_overwrite.
Qed.

End overwrite.

(** ** Partition directories *)

Section directories.
Context {engine : Engine}.










End directories.

(** ** The write in closed form *)

Section written_frame.
Context {engine : Engine}.

Lemma output_columns_NoDup fields :
  fact_schema_ok fields = true → NoDup (output_columns fields).
Proof.
  intros (Hnd & _ & Hfresh)%fact_schema_ok_spec. unfold output_columns.
  apply NoDup_app. split; [by apply NoDup_filter|]. split; [|compute_done].
  intros c [_ Hc]%list_elem_of_filter Htail.
  rewrite Forall_forall in Hfresh. apply (Hfresh c); [|done].
  clear Hc. revert c Htail. apply Forall_forall. compute_done.
Qed.

Lemma write_yellow_opt_ok t df store :
  fact_schema_ok (dyf_fields (yellow_dyf t)) = true →
  yellow_opt_df t = Ok df →
  write_yellow_opt t store
  = Ok (layout destination ["pu_year"; "pu_month"] (rows df)
        ∪ outside destination store).
Proof.
  intros Hok Hdf. unfold write_yellow_opt. rewrite Hdf. simpl.
  rewrite yellow_opt_df_ok in Hdf by done. injection Hdf as <-.
  pose proof Hok as (_ & _ & Hfresh)%fact_schema_ok_spec.
  unfold lookup_columns, derived_columns in Hfresh.
  unfold save, yellow_opt_writer. simpl.
  destruct (decide (NoDup _)) as [_|Hn];
    [|by destruct Hn; apply output_columns_NoDup]. simpl.
  unfold output_columns.
  assert (∀ c, c ∉ dyf_fields (yellow_dyf t) →
            c ∉ filter (λ c, c ∉ dropped_columns) (dyf_fields (yellow_dyf t))) as Hf.
  { intros c Hc [_ ?]%list_elem_of_filter. done. }
  do 2 (rewrite resolve_app_r by (apply Hf; names_tac) || reflexivity; simpl).
  destruct (decide (filter _ _ = [])) as [E|_]; [|done].
  rewrite filter_app in E. apply app_eq_nil in E as [_ E]. by vm_compute in E.
Qed.

Lemma write_yellow_opt_Ok t store store' :
  write_yellow_opt t store = Ok store' →
  ∃ df, yellow_opt_df t = Ok df ∧ NoDup (columns df)
    ∧ store' = layout destination ["pu_year"; "pu_month"] (rows df)
               ∪ outside destination store.
Proof.
  unfold write_yellow_opt. destruct (yellow_opt_df t) as [df|e]; simpl; [|done].
  rewrite save_yellow_opt. destruct (save _ _ ∅) eqn:Hsave; [|done].
  intros [= <-]. exists df. split; [done|]. split; [|done].
  unfold save in Hsave. simpl in Hsave.
  by destruct (decide (NoDup (columns df))).
Qed.

Lemma write_yellow_opt_total t store :
  fact_schema_ok (dyf_fields (yellow_dyf t)) = true →
  ∃ store', write_yellow_opt t store = Ok store'.
Proof.
  intros Hok. destruct (yellow_opt_df_total t Hok) as [df Hdf].
  eexists. by apply (write_yellow_opt_ok t df).
Qed.

(** ** C8 *)


End written_frame.


(** ** C10 *)

Section zones.
Context {engine : Engine}.

Lemma elem_of_pu_rows t b :
  b ∈ rows (pu_taxi_zone_df t) ↔
  ∃ rec, rec ∈ dyf_records (taxi_zone_dyf t)
    ∧ b = [("pu_locationid", cast "bigint" (cell "locationid" rec));
           ("pu_borough", cast "string" (cell "borough" rec));
           ("pu_zone", cast "string" (cell "zone" rec));
           ("pu_service_zone", cast "string" (cell "service_zone" rec))].
Proof.
  unfold pu_taxi_zone_df, toDF, apply_mapping. simpl.
  rewrite <- list_fmap_compose, list_elem_of_fmap.
  split; intros (rec & ? & ?); by exists rec.
Qed.

Lemma elem_of_do_rows t b :
  b ∈ rows (do_taxi_zone_df t) ↔
  ∃ rec, rec ∈ dyf_records (taxi_zone_dyf t)
    ∧ b = [("do_locationid", cast "bigint" (cell "locationid" rec));
           ("do_borough", cast "string" (cell "borough" rec));
           ("do_zone", cast "string" (cell "zone" rec));
           ("do_service_zone", cast "string" (cell "service_zone" rec))].
Proof.
  unfold do_taxi_zone_df, toDF, apply_mapping. simpl.
  rewrite <- list_fmap_compose, list_elem_of_fmap.
  split; intros (rec & ? & ?); by exists rec.
Qed.

Lemma elem_of_payment_rows t b :
  b ∈ rows (payment_type_df t) ↔
  ∃ rec, rec ∈ dyf_records (payment_type_dyf t)
    ∧ b = [("payment_type_id", cast "bigint" (cell "id" rec));
           ("payment_type_name", cast "string" (cell "name" rec))].
Proof.
  unfold payment_type_df, toDF, apply_mapping. simpl.
  rewrite <- list_fmap_compose, list_elem_of_fmap.
  split; intros (rec & ? & ?); by exists rec.
Qed.

Lemma elem_of_rate_rows t b :
  b ∈ rows (rate_code_df t) ↔
  ∃ rec, rec ∈ dyf_records (payment_type_dyf t)
    ∧ b = [("ratecode_id", cast "bigint" (cell "id" rec));
           ("ratecode_name", cast "string" (cell "name" rec))].
Proof.
  unfold rate_code_df, toDF, apply_mapping. simpl.
  rewrite <- list_fmap_compose, list_elem_of_fmap.
  split; intros (rec & ? & ?); by exists rec.
Qed.



End zones.


Section zones_2.
Context {engine : Engine}.

Lemma NoDup_filter_set_name (P : string → Prop) `{!∀ c, Decision (P c)} name cols :
  NoDup (filter P (set_name name cols)) → NoDup (filter P cols).
Proof.
  unfold set_name. destruct (decide (name ∈ cols)); [done|].
  rewrite filter_app. by intros [? _]%NoDup_app.
Qed.

(** A frame the writer accepts has no column name twice, so the fact
    table had none of the look-up names that stay. *)
Lemma kept_lookup_fresh t df :
  yellow_opt_df t = Ok df → NoDup (columns df) →
  Forall (λ c, c ∉ dyf_fields (yellow_dyf t)) kept_lookup_columns.
Proof.
  intros (_ & -> & _)%yellow_opt_run Hnd.
  do 5 apply NoDup_filter_set_name in Hnd.
  rewrite filter_app in Hnd. apply NoDup_app in Hnd as (_ & Hdisj & _).
  apply Forall_forall. intros c Hc Hin. apply (Hdisj c); [|done].
  apply list_elem_of_filter. split; [|done].
  by apply list_elem_of_filter in Hc as [? _].
Qed.


End zones_2.


(** ** C3 (amended) *)

Section matched_facts.
Context {engine : Engine}.






End matched_facts.


(** ** C5 *)

Section example.
Context {engine : Engine}.



End example.


Section example_2.
Context {engine : Engine}.


End example_2.


(** ** The order of rows *)

Section order.
Context {engine : Engine}.

Lemma Z_preorder : preorder_compare Z.compare.
Proof.
  split; [|split].
  - intros a b. apply Z.compare_antisym.
  - intros a b c ->%Z.compare_eq. done.
  - intros a b c. rewrite !Z.compare_lt_iff. lia.
Qed.

Lemma string_preorder : preorder_compare String.compare.
Proof.
  split; [|split].
  - intros a b. apply String.compare_antisym.
  - intros a b c ->%String.compare_eq_iff. done.
  - intros a b c.
    rewrite !(OrderedTypeEx.String_as_OT.cmp_lt).
    apply OrderedTypeEx.String_as_OT.lt_trans.
Qed.

Lemma lex_preorder {A} (f g : A → A → comparison) :
  preorder_compare f → preorder_compare g →
  preorder_compare (λ a b, lex (f a b) (g a b)).
Proof.
  intros (Hf1 & Hf2 & Hf3) (Hg1 & Hg2 & Hg3). split; [|split].
  - intros a b. rewrite Hf1, Hg1. by destruct (f a b).
  - intros a b c. unfold lex.
    destruct (f a b) eqn:Hab; [|done..]. intros Hg.
    rewrite (Hf2 a b c Hab). destruct (f b c); [by apply Hg2|done..].
  - intros a b c. unfold lex.
    destruct (f a b) eqn:Hab; [| |done].
    + intros Hg. rewrite (Hf2 a b c Hab).
      destruct (f b c); [by apply Hg3|done..].
    + intros _. destruct (f b c) eqn:Hbc; [| |done]; intros Hg.
      * assert (f c b = Eq) as Hcb by (by rewrite Hf1, Hbc).
        assert (f c a = Gt) as Hca.
        { rewrite (Hf2 c b a Hcb), Hf1, Hab. done. }
        rewrite Hf1, Hca. done.
      * by rewrite (Hf3 a b c Hab Hbc).
Qed.

Lemma on_preorder {A B} (h : A → B) (cmp : B → B → comparison) :
  preorder_compare cmp → preorder_compare (λ a b, cmp (h a) (h b)).
Proof.
  intros (H1 & H2 & H3). split; [|split].
  - intros a b. apply H1.
  - intros a b c. apply H2.
  - intros a b c. apply H3.
Qed.

Lemma timestamp_preorder : preorder_compare timestamp_compare.
Proof.
  unfold timestamp_compare.
  repeat apply lex_preorder;
    first [apply (on_preorder ts_year) | apply (on_preorder ts_month)
          | apply (on_preorder ts_day) | apply (on_preorder ts_hour)
          | apply (on_preorder ts_minute) | apply (on_preorder ts_second)];
    apply Z_preorder.
Qed.

Lemma value_preorder : preorder_compare value_compare.
Proof.
  destruct Z_preorder as (Hz1 & Hz2 & Hz3).
  destruct string_preorder as (Hs1 & Hs2 & Hs3).
  destruct timestamp_preorder as (Ht1 & Ht2 & Ht3).
  split; [|split].
  - intros [] []; simpl; auto.
  - intros [] [] []; simpl; try done; auto.
  - intros [] [] []; simpl; try done; eauto.
Qed.

Lemma row_preorder keys : preorder_compare (row_compare keys).
Proof.
  induction keys as [|k keys IH]; simpl.
  - by repeat split.
  - apply (lex_preorder (λ a b, value_compare (cell k a) (cell k b))); [|done].
    apply (on_preorder (cell k)), value_preorder.
Qed.

Lemma row_le_total keys : Total (row_le keys).
Proof.
  destruct (row_preorder keys) as (H1 & _ & _).
  intros r1 r2. unfold row_le. rewrite (H1 r1 r2).
  destruct (row_compare keys r1 r2); simpl; auto.
Qed.

Lemma row_le_trans keys : Transitive (row_le keys).
Proof.
  destruct (row_preorder keys) as (H1 & H2 & H3).
  intros a b c. unfold row_le.
  destruct (row_compare keys a b) eqn:Hab; [| |done]; intros _.
  - by rewrite (H2 a b c Hab).
  - destruct (row_compare keys b c) eqn:Hbc; [| |done]; intros _.
    + assert (row_compare keys c b = Eq) as Hcb by (by rewrite H1, Hbc).
      assert (row_compare keys c a = Gt) as Hca.
      { rewrite (H2 c b a Hcb), H1, Hab. done. }
      rewrite H1, Hca. done.
    + by rewrite (H3 a b c Hab Hbc).
Qed.

Lemma row_compare_drop_cells keys dropped r1 r2 :
  Forall (λ k, k ∉ dropped) keys →
  row_compare keys (drop_cells dropped r1) (drop_cells dropped r2)
  = row_compare keys r1 r2.
Proof.
  induction 1 as [|k keys Hk _ IH]; simpl; [done|].
  by rewrite !cell_drop_cells, IH.
Qed.

Lemma orderBy_drop_sorted keys dropped (l : list Row) :
  Forall (λ k, k ∉ dropped) keys →
  StronglySorted (row_le keys) (drop_cells dropped <$> merge_sort (row_le keys) l).
Proof.
  intros Hk. apply (StronglySorted_fmap _ (row_le keys)).
  - intros x y. unfold row_le. by rewrite row_compare_drop_cells.
  - apply StronglySorted_merge_sort; [apply row_le_trans|apply row_le_total].
Qed.

Lemma StronglySorted_lookup {A} (R : relation A) (l : list A) i j x y :
  StronglySorted R l → (i < j)%nat → l !! i = Some x → l !! j = Some y → R x y.
Proof.
  intros Hl. revert i j. induction Hl as [|a l Hl IH Ha]; intros i j Hij Hi Hj; [done|].
  destruct j as [|j]; [lia|]. simpl in Hj.
  destruct i as [|i]; simpl in Hi.
  - simplify_eq. rewrite Forall_forall in Ha. apply Ha. by eapply list_elem_of_lookup_2.
  - apply (IH i j); [lia|done..].
Qed.

(** X1: the rows of the enriched frame are in ascending order of pick-up
    year, month and day (line 187), and dropping the seven columns
    afterwards does not disturb that order: every row precedes every later
    row.  Rows without a pick-up year come first, and among rows with a
    year the years do not decrease. *)
Theorem output_is_sorted_by_pickup_date t df :
  yellow_opt_df t = Ok df →
  StronglySorted (row_le ["pu_year"; "pu_month"; "pu_day"]) (rows df)
  ∧ ∀ i j r r', (i < j)%nat → rows df !! i = Some r → rows df !! j = Some r' →
      (cell "pu_year" r' = VNull → cell "pu_year" r = VNull)
      ∧ (∀ y y', cell "pu_year" r = VInt y → cell "pu_year" r' = VInt y' → y ≤ y').
Proof.
  intros Hrun. destruct (yellow_opt_run t df Hrun) as (_ & _ & Hrows).
  assert (StronglySorted (row_le ["pu_year"; "pu_month"; "pu_day"]) (rows df)) as Hs.
  { rewrite Hrows. apply orderBy_drop_sorted. compute_done. }
  split; [done|]. intros i j r r' Hij Hi Hj.
  pose proof (StronglySorted_lookup _ _ _ _ _ _ Hs Hij Hi Hj) as Hle.
  unfold row_le in Hle. simpl in Hle. split.
  - intros Hnull. rewrite Hnull in Hle.
    destruct (cell "pu_year" r); [done|exfalso; by apply Hle..].
  - intros y y' Hy Hy'. rewrite Hy, Hy' in Hle. simpl in Hle.
    apply Z.compare_le_iff. intros Hgt. apply Hle. by rewrite Hgt.
Qed.

End order.

Lemma output_is_sorted_by_pickup_date_witness :
  ∃ df, yellow_opt_df sample_run = Ok df
    ∧ StronglySorted (row_le ["pu_year"; "pu_month"; "pu_day"]) (rows df)
    ∧ cell "pu_year" <$> rows df = [VNull; VInt 2019; VInt 2019].
Proof.
  eexists. split; [vm_compute; reflexivity|].
  split; [|vm_compute; reflexivity].
  apply (output_is_sorted_by_pickup_date sample_run). vm_compute; reflexivity.
Defined.

(** ** The rows of the result and the records they come from *)

Section output_rows.
Context {engine : Engine}.

Lemma names_set_cell name v r : names (set_cell name v r) = set_name name (names r).
Proof.
  unfold set_cell, set_name, names.
  destruct (decide (name ∈ r.*1)) as [_|_].
  - rewrite <- list_fmap_compose. apply list_fmap_ext.
    intros _ [c w] _. simpl. by destruct (decide (c = name)).
  - by rewrite fmap_app.
Qed.

Lemma names_finish j :
  names (finish j)
  = filter (λ c, c ∉ dropped_columns)
      (set_name "pu_day" (set_name "pu_month" (set_name "pu_year"
        (set_name "do_datetime" (set_name "pu_datetime" (names j)))))).
Proof.
  unfold finish, derive. by rewrite names_drop_cells, !names_set_cell.
Qed.

Lemma expand_names t a j :
  a ∈ rows (yellow_df t) → j ∈ expand t a →
  names j = dyf_fields (yellow_dyf t) ++ lookup_columns.
Proof.
  intros Ha (b1 & b2 & b3 & b4 & H1 & H2 & H3 & H4 & ->)%elem_of_expand.
  apply list_elem_of_filter in H1 as [_ (? & _ & ->)%elem_of_pu_rows].
  apply list_elem_of_filter in H2 as [_ (? & _ & ->)%elem_of_do_rows].
  apply list_elem_of_filter in H3 as [_ (? & _ & ->)%elem_of_payment_rows].
  apply list_elem_of_filter in H4 as [_ (? & _ & ->)%elem_of_rate_rows].
  unfold names. rewrite !fmap_app. fold (names a).
  rewrite (yellow_row_names t a Ha), <- !app_assoc. done.
Qed.

(** X2: in every enriched frame the rows fit the schema: each row has
    exactly one cell per column of the frame, in the order of the columns.
    The four joins, the five [withColumn], the sort and the [drop] of
    lines 178-195 change the schema and the rows in step. *)
Theorem output_rows_fit_the_schema t df :
  yellow_opt_df t = Ok df →
  Forall (λ r, names r = columns df) (rows df).
Proof.
  intros Hrun. destruct (yellow_opt_run t df Hrun) as (_ & Hcols & _).
  apply Forall_forall. intros r Hr.
  apply (elem_of_yellow_opt_rows t df r Hrun) in Hr as (a & j & Ha & Hj & ->).
  by rewrite names_finish, (expand_names t a j Ha Hj), Hcols.
Qed.

End output_rows.

Lemma output_rows_fit_the_schema_witness :
  ∃ df, yellow_opt_df sample_run = Ok df
    ∧ length (rows df) = 3%nat
    ∧ Forall (λ r, names r = columns df) (rows df).
Proof.
  eexists. split; [vm_compute; reflexivity|]. split; [vm_compute; reflexivity|].
  apply (output_rows_fit_the_schema sample_run). vm_compute; reflexivity.
Defined.

Section output_rows_2.
Context {engine : Engine}.

(** X3: on a yellow table whose key columns hold bigint values, every
    output row comes from a fully matched row of that table, and every
    column of the table which is neither dropped (lines 188-194) nor
    overwritten by a derived column (lines 182-186) has in the output
    row the value it has in the fact row. *)
Theorem fact_columns_pass_through t df :
  bigint_keys t →
  yellow_opt_df t = Ok df →
  ∀ r, r ∈ rows df →
    ∃ a, a ∈ rows (yellow_df t) ∧ full_match t a
      ∧ ∀ name, name ∈ dyf_fields (yellow_dyf t) →
          name ∉ dropped_columns → name ∉ derived_columns →
          cell name r = cell name a.
Proof.
  intros _ Hrun r (a & j & Ha & Hj & ->)%(elem_of_yellow_opt_rows t df); [|done].
  exists a. split; [done|]. split; [apply expand_nonempty; by exists j|].
  intros name Hname Hdropped Hderived.
  by rewrite finish_kept, (expand_fact_cell t a j name).
Qed.

End output_rows_2.

Lemma fact_columns_pass_through_witness :
  bigint_keys (sample_tables [example_trip])
  ∧ ∃ df, yellow_opt_df (sample_tables [example_trip]) = Ok df
    ∧ ∀ r, r ∈ rows df →
        ∃ a, a ∈ rows (yellow_df (sample_tables [example_trip]))
          ∧ full_match (sample_tables [example_trip]) a
          ∧ ∀ name, name ∈ yellow_fields →
              name ∉ dropped_columns → name ∉ derived_columns →
              cell name r = cell name a.
Proof.
  split; [by apply (bool_decide_unpack _); vm_compute|].
  eexists. split; [vm_compute; reflexivity|].
  apply (fact_columns_pass_through (sample_tables [example_trip]));
    [by apply (bool_decide_unpack _); vm_compute|vm_compute; reflexivity].
Defined.

Section output_rows_3.
Context {engine : Engine}.

(** X4: on a yellow table whose key columns hold bigint values, when
    the run writes its result, the look-up columns of every output row
    are those of look-up records that match the fact row on the join
    keys of lines 178-181: the pick-up and drop-off attributes are
    those of taxi-zone records with the trip's two location ids, the
    payment-type name is that of a payment-type record with the trip's
    payment type, and [ratecode_id] and [ratecode_name] are the id and the
    name of a payment-type record (line 125) whose id is the trip's rate
    code.  A key that matches is never null. *)
Theorem lookup_columns_come_from_matching_records t store store' :
  bigint_keys t →
  write_yellow_opt t store = Ok store' →
  ∃ df, yellow_opt_df t = Ok df
    ∧ ∀ r, r ∈ rows df →
        ∃ a pu_rec do_rec pt_rec rc_rec,
          a ∈ rows (yellow_df t)
          ∧ pu_rec ∈ dyf_records (taxi_zone_dyf t)
          ∧ do_rec ∈ dyf_records (taxi_zone_dyf t)
          ∧ pt_rec ∈ dyf_records (payment_type_dyf t)
          ∧ rc_rec ∈ dyf_records (payment_type_dyf t)
          ∧ sql_eq (cell "pulocationid" a) (cast "bigint" (cell "locationid" pu_rec))
          ∧ sql_eq (cell "dolocationid" a) (cast "bigint" (cell "locationid" do_rec))
          ∧ sql_eq (cell "payment_type" a) (cast "bigint" (cell "id" pt_rec))
          ∧ sql_eq (cell "ratecodeid" a) (cast "bigint" (cell "id" rc_rec))
          ∧ cell "pu_locationid" r = cast "bigint" (cell "locationid" pu_rec)
          ∧ cell "pu_borough" r = cast "string" (cell "borough" pu_rec)
          ∧ cell "pu_zone" r = cast "string" (cell "zone" pu_rec)
          ∧ cell "pu_service_zone" r = cast "string" (cell "service_zone" pu_rec)
          ∧ cell "do_locationid" r = cast "bigint" (cell "locationid" do_rec)
          ∧ cell "do_borough" r = cast "string" (cell "borough" do_rec)
          ∧ cell "do_zone" r = cast "string" (cell "zone" do_rec)
          ∧ cell "do_service_zone" r = cast "string" (cell "service_zone" do_rec)
          ∧ cell "payment_type_name" r = cast "string" (cell "name" pt_rec)
          ∧ cell "ratecode_id" r = cast "bigint" (cell "id" rc_rec)
          ∧ cell "ratecode_name" r = cast "string" (cell "name" rc_rec).
Proof.
  intros _ (df & Hdf & Hnd & _)%write_yellow_opt_Ok.
  exists df. split; [done|].
  pose proof (kept_lookup_fresh t df Hdf Hnd) as Hfresh.
  intros r (a & j & Ha & Hj & ->)%(elem_of_yellow_opt_rows t df); [|done].
  apply elem_of_expand in Hj as (b1 & b2 & b3 & b4 & H1 & H2 & H3 & H4 & ->).
  apply list_elem_of_filter in H1 as [E1 (rec1 & Hrec1 & ->)%elem_of_pu_rows].
  apply list_elem_of_filter in H2 as [E2 (rec2 & Hrec2 & ->)%elem_of_do_rows].
  apply list_elem_of_filter in H3 as [E3 (rec3 & Hrec3 & ->)%elem_of_payment_rows].
  apply list_elem_of_filter in H4 as [E4 (rec4 & Hrec4 & ->)%elem_of_rate_rows].
  simpl in E1, E2, E3, E4.
  exists a, rec1, rec2, rec3, rec4.
  assert (∀ c rest, c ∈ kept_lookup_columns → cell c (a ++ rest) = cell c rest)
    as Hskip.
  { intros c rest Hc. apply cell_app_r. rewrite (yellow_row_names t a Ha).
    rewrite Forall_forall in Hfresh. by apply Hfresh. }
  rewrite !finish_kept by compute_done.
  rewrite <- !app_assoc, !Hskip by compute_done. simpl.
  repeat (split; [done|]). done.
Qed.

End output_rows_3.

Lemma lookup_columns_come_from_matching_records_witness :
  bigint_keys sample_run
  ∧ ∃ store', write_yellow_opt sample_run ∅ = Ok store'
    ∧ ∃ df, yellow_opt_df sample_run = Ok df
      ∧ ∀ r, r ∈ rows df →
          ∃ a pu_rec do_rec pt_rec rc_rec,
            a ∈ rows (yellow_df sample_run)
            ∧ pu_rec ∈ dyf_records (taxi_zone_dyf sample_run)
            ∧ do_rec ∈ dyf_records (taxi_zone_dyf sample_run)
            ∧ pt_rec ∈ dyf_records (payment_type_dyf sample_run)
            ∧ rc_rec ∈ dyf_records (payment_type_dyf sample_run)
            ∧ sql_eq (cell "pulocationid" a) (cast "bigint" (cell "locationid" pu_rec))
            ∧ sql_eq (cell "dolocationid" a) (cast "bigint" (cell "locationid" do_rec))
            ∧ sql_eq (cell "payment_type" a) (cast "bigint" (cell "id" pt_rec))
            ∧ sql_eq (cell "ratecodeid" a) (cast "bigint" (cell "id" rc_rec))
            ∧ cell "pu_locationid" r = cast "bigint" (cell "locationid" pu_rec)
            ∧ cell "pu_borough" r = cast "string" (cell "borough" pu_rec)
            ∧ cell "pu_zone" r = cast "string" (cell "zone" pu_rec)
            ∧ cell "pu_service_zone" r = cast "string" (cell "service_zone" pu_rec)
            ∧ cell "do_locationid" r = cast "bigint" (cell "locationid" do_rec)
            ∧ cell "do_borough" r = cast "string" (cell "borough" do_rec)
            ∧ cell "do_zone" r = cast "string" (cell "zone" do_rec)
            ∧ cell "do_service_zone" r = cast "string" (cell "service_zone" do_rec)
            ∧ cell "payment_type_name" r = cast "string" (cell "name" pt_rec)
            ∧ cell "ratecode_id" r = cast "bigint" (cell "id" rc_rec)
            ∧ cell "ratecode_name" r = cast "string" (cell "name" rc_rec).
Proof.
  destruct (write_yellow_opt_total sample_run ∅) as [store' Hw];
    [vm_compute; reflexivity|].
  assert (bigint_keys sample_run) as Hkeys by (by apply (bool_decide_unpack _); vm_compute).
  split; [exact Hkeys|]. exists store'. split; [done|].
  exact (lookup_columns_come_from_matching_records sample_run ∅ store' Hkeys Hw).
Defined.

(** ** The catalog *)

Section catalog_and_store.
Context {engine : Engine}.

Lemma notebook_Ok catalog store store' :
  notebook catalog store = Ok store' →
  ∃ t, load_tables catalog = Ok t ∧ write_yellow_opt t store = Ok store'.
Proof.
  unfold notebook. destruct (load_tables catalog) as [t|e]; [|done].
  intros Hw. by exists t.
Qed.

Lemma from_catalog_Some catalog database table_name dyf :
  catalog !! database ≫= (.!! table_name) = Some dyf →
  from_catalog catalog database table_name = Ok dyf.
Proof. unfold from_catalog. by intros ->. Qed.

Lemma from_catalog_None catalog database table_name :
  catalog !! database ≫= (.!! table_name) = None →
  from_catalog catalog database table_name = Err (EntityNotFound database table_name).
Proof. unfold from_catalog. by intros ->. Qed.

(** X5: cell 2 reads four tables of the database [nyctaxi], in the order
    yellow, taxizone, paymenttype, ratecode (lines 76-86).  When one of
    them is not registered and the ones read before it are, the run fails
    with the catalog's error for that table, whatever the store holds, and
    nothing is written.  This holds for the rate-code table too, which no
    later cell reads. *)
Theorem missing_table_aborts_the_run catalog store before table_name after :
  catalog_tables = before ++ table_name :: after →
  Forall (λ n, is_Some (catalog !! "nyctaxi" ≫= (.!! n))) before →
  catalog !! "nyctaxi" ≫= (.!! table_name) = None →
  notebook catalog store = Err (EntityNotFound "nyctaxi" table_name).
Proof.
  unfold catalog_tables, notebook, load_tables.
  intros Hsplit Hbefore Herr%from_catalog_None.
  destruct before as [|b1 before]; simpl in Hsplit; injection Hsplit as <- Hsplit;
    [by rewrite Herr|].
  apply Forall_cons in Hbefore as [[x1 H1%from_catalog_Some] Hbefore]. rewrite H1.
  destruct before as [|b2 before]; simpl in Hsplit; injection Hsplit as <- Hsplit;
    [by rewrite Herr|].
  apply Forall_cons in Hbefore as [[x2 H2%from_catalog_Some] Hbefore]. rewrite H2.
  destruct before as [|b3 before]; simpl in Hsplit; injection Hsplit as <- Hsplit;
    [by rewrite Herr|].
  apply Forall_cons in Hbefore as [[x3 H3%from_catalog_Some] Hbefore]. rewrite H3.
  destruct before as [|b4 before]; simpl in Hsplit; injection Hsplit as <- Hsplit;
    [by rewrite Herr|].
  by destruct before.
Qed.

End catalog_and_store.

Lemma missing_table_aborts_the_run_witness :
  notebook (catalog_without_rate_codes [example_trip]) stale_store
  = Err (EntityNotFound "nyctaxi" "ratecode").
Proof.
  apply (missing_table_aborts_the_run _ _ ["yellow"; "taxizone"; "paymenttype"]
           "ratecode" []).
  - reflexivity.
  - repeat (apply Forall_cons; split; [eexists; vm_compute; reflexivity|]).
    apply Forall_nil_2.
  - vm_compute; reflexivity.
Defined.

(** ** What the write does to the store *)

Section catalog_and_store_2.
Context {engine : Engine}.

Lemma below_layout path keys rs :
  below path (layout path keys rs) = layout path keys rs.
Proof.
  apply map_filter_id. intros d data Hd. simpl.
  apply (layout_under path keys rs). by rewrite Hd.
Qed.

Lemma below_outside path store : below path (outside path store) = ∅.
Proof.
  apply map_eq. intros d. rewrite lookup_below, lookup_outside, lookup_empty.
  by destruct (decide (under path d)).
Qed.

Lemma outside_overwrite path new store :
  below path new = new → outside path (new ∪ outside path store) = outside path store.
Proof.
  intros Hnew. apply map_eq. intros d.
  rewrite !lookup_outside. destruct (decide (under path d)) as [|Hd]; [done|].
  rewrite lookup_union, lookup_outside, <- Hnew, lookup_below.
  destruct (decide (under path d)); [done|]. by rewrite (left_id None _).
Qed.

Lemma insert_cons_rows (m : gmap string (list Row)) d x :
  mjoin (map_to_list (<[d := x :: default [] (m !! d)]> m)).*2
  ≡ₚ x :: mjoin (map_to_list m).*2.
Proof.
  destruct (m !! d) as [old|] eqn:Hd; simpl.
  - rewrite <- insert_delete_eq.
    rewrite map_to_list_insert by apply lookup_delete_eq.
    rewrite <- (map_to_list_delete m d old Hd). done.
  - by rewrite map_to_list_insert.
Qed.

Lemma layout_rows path keys rs :
  mjoin (map_to_list (layout path keys rs)).*2 ≡ₚ drop_cells keys <$> rs.
Proof.
  induction rs as [|r rs IH]; simpl.
  - by rewrite map_to_list_empty.
  - rewrite insert_cons_rows. by constructor.
Qed.

(** X6: a run that succeeds leaves every object that is not under the
    destination path of line 251 as it was: the overwrite of line 247
    replaces the destination and nothing else. *)
Theorem write_leaves_other_objects_alone catalog store store' :
  notebook catalog store = Ok store' →
  outside destination store' = outside destination store
  ∧ ∀ d, ¬ under destination d → store' !! d = store !! d.
Proof.
  intros (t & _ & (df & _ & _ & ->)%write_yellow_opt_Ok)%notebook_Ok.
  assert (outside destination
            (layout destination ["pu_year"; "pu_month"] (rows df)
             ∪ outside destination store) = outside destination store) as Hout.
  { apply outside_overwrite, below_layout. }
  split; [done|]. intros d Hd.
  pose proof (f_equal (.!! d) Hout) as Hlook. simpl in Hlook.
  rewrite !lookup_outside in Hlook. by destruct (decide (under destination d)).
Qed.

End catalog_and_store_2.

Lemma write_leaves_other_objects_alone_witness :
  ∃ store', notebook (sample_catalog [example_trip]) stale_store = Ok store'
    ∧ outside destination store' = outside destination stale_store
    ∧ store' !! ("s3://" +:+ your_bucket_name +:+ "/data/raw/nyctaxi/yellow/")
      = Some [example_trip].
Proof.
  destruct (write_yellow_opt_total (sample_tables [example_trip]) stale_store)
    as [store' Hw]; [vm_compute; reflexivity|].
  assert (notebook (sample_catalog [example_trip]) stale_store = Ok store') as Hrun.
  { rewrite <- Hw. reflexivity. }
  exists store'. split; [done|].
  destruct (write_leaves_other_objects_alone _ _ _ Hrun) as [Hout Hkeep].
  split; [done|]. rewrite Hkeep; [reflexivity|]. vm_compute. discriminate.
Defined.

Section catalog_and_store_3.
Context {engine : Engine}.

(** X7: the write of lines 245-251 loses no row and adds none: the rows
    found under the destination after a run are, taken together, the rows
    of the enriched frame without their two partition columns, each as
    often as the frame holds it; and every stored row has the columns of
    the frame other than [pu_year] and [pu_month], in the frame's order. *)
Theorem write_stores_every_row_once t store store' :
  write_yellow_opt t store = Ok store' →
  ∃ df, yellow_opt_df t = Ok df
    ∧ mjoin (map_to_list (below destination store')).*2
      ≡ₚ drop_cells ["pu_year"; "pu_month"] <$> rows df
    ∧ ∀ d data, under destination d → store' !! d = Some data →
        Forall (λ r, names r = filter (λ c, c ∉ ["pu_year"; "pu_month"]) (columns df))
               data.
Proof.
  intros (df & Hdf & _ & ->)%write_yellow_opt_Ok. exists df. split; [done|]. split.
  - rewrite below_overwrite, below_layout. apply layout_rows.
  - intros d data Hd. rewrite lookup_union, lookup_outside, layout_lookup.
    destruct (decide (under destination d)); [|done].
    rewrite (right_id None _).
    set (g := filter _ (rows df)).
    assert (∀ r, r ∈ g → r ∈ rows df) as Hsub.
    { intros r Hr. by apply list_elem_of_filter in Hr as [_ ?]. }
    clearbody g. destruct g as [|r0 g]; [done|]. intros [= <-].
    apply Forall_forall. intros r' Hr'.
    change (r' ∈ drop_cells ["pu_year"; "pu_month"] <$> (r0 :: g)) in Hr'.
    apply list_elem_of_fmap in Hr' as (r & -> & Hin%Hsub).
    destruct (yellow_opt_run t df Hdf) as (_ & Hcols & _).
    apply (elem_of_yellow_opt_rows t df r Hdf) in Hin as (a & j & Ha & Hj & ->).
    by rewrite names_drop_cells, names_finish, (expand_names t a j Ha Hj), Hcols.
Qed.

End catalog_and_store_3.

Lemma write_stores_every_row_once_witness :
  ∃ store' df,
    write_yellow_opt sample_run stale_store = Ok store'
    ∧ yellow_opt_df sample_run = Ok df
    ∧ length (rows df) = 3%nat
    ∧ mjoin (map_to_list (below destination store')).*2
      ≡ₚ drop_cells ["pu_year"; "pu_month"] <$> rows df.
Proof.
  destruct (write_yellow_opt_total sample_run stale_store) as [store' Hw];
    [vm_compute; reflexivity|].
  destruct (write_stores_every_row_once sample_run stale_store store' Hw)
    as (df & Hdf & Hrows & _).
  exists store', df. split; [done|]. split; [done|]. split; [|done].
  assert (Ok df = yellow_opt_df sample_run) as Hdf' by done.
  vm_compute in Hdf'. by injection Hdf' as ->.
Defined.

Section catalog_and_store_4.
Context {engine : Engine}.

(** X8: when the key columns of the yellow table hold bigint values and
    no row of the table is matched in all four look-ups (an empty table
    is one case), a run that succeeds writes no partition,
    and by the overwrite of line 247 the destination is then empty: what
    an earlier run had left there is gone, and the rest of the store is
    as it was. *)
Theorem unmatched_run_empties_the_destination t store store' :
  bigint_keys t →
  write_yellow_opt t store = Ok store' →
  Forall (λ a, ¬ full_match t a) (rows (yellow_df t)) →
  store' = outside destination store ∧ below destination store' = ∅.
Proof.
  intros _ (df & Hdf & _ & ->)%write_yellow_opt_Ok Hnone.
  assert (rows df = []) as ->.
  { apply Permutation_nil_r. rewrite (yellow_opt_rows_Permutation t df Hdf).
    assert (rows (yellow_df t) ≫= expand t = []) as ->; [|done].
    induction Hnone as [|a l Ha _ IH]; [done|].
    rewrite bind_cons, IH, app_nil_r.
    destruct (expand t a) as [|j js] eqn:Hj; [done|].
    exfalso. apply Ha, expand_nonempty. exists j. rewrite Hj. by left. }
  simpl. rewrite (left_id ∅ _). split; [done|]. apply below_outside.
Qed.

End catalog_and_store_4.

Lemma unmatched_run_empties_the_destination_witness :
  bigint_keys (sample_tables [rate_99_trip])
  ∧ ∃ store', write_yellow_opt (sample_tables [rate_99_trip]) stale_store = Ok store'
    ∧ is_Some (stale_store !! (destination +:+ "pu_year=2018/pu_month=12/"))
    ∧ store' = outside destination stale_store
    ∧ below destination store' = ∅.
Proof.
  destruct (write_yellow_opt_total (sample_tables [rate_99_trip]) stale_store)
    as [store' Hw]; [vm_compute; reflexivity|].
  assert (bigint_keys (sample_tables [rate_99_trip])) as Hkeys by (by apply (bool_decide_unpack _); vm_compute).
  split; [exact Hkeys|].
  exists store'. split; [done|]. split; [eexists; vm_compute; reflexivity|].
  apply (unmatched_run_empties_the_destination (sample_tables [rate_99_trip])
           stale_store store' Hkeys Hw).
  apply Forall_cons. split; [|apply Forall_nil_2].
  intros (_ & _ & _ & Hrate). by apply Hrate.
Defined.

(** ** Schemas and outcomes *)

Section outcomes.
Context {engine : Engine}.

Lemma bind_schema (r1 r2 : Result DataFrame) (f g : DataFrame → Result DataFrame) :
  same_schema r1 r2 →
  (∀ d1 d2, columns d1 = columns d2 → same_schema (f d1) (g d2)) →
  same_schema (r1 ≫= f) (r2 ≫= g).
Proof.
  destruct r1 as [d1|e1], r2 as [d2|e2]; simpl; try done. intros H Hf. by apply Hf.
Qed.

Lemma withColumn_schema name c d1 d2 :
  columns d1 = columns d2 →
  same_schema (withColumn name c d1) (withColumn name c d2).
Proof.
  intros Hc. unfold withColumn. rewrite Hc.
  by destruct (analyze c (columns d2)) as [[]|e].
Qed.

Lemma orderBy_schema keys d1 d2 :
  columns d1 = columns d2 → same_schema (orderBy keys d1) (orderBy keys d2).
Proof.
  intros Hc. unfold orderBy. rewrite Hc.
  by destruct (resolve_all keys (columns d2)) as [[]|e].
Qed.

Lemma eq_cond_columns l1 l2 r1 r2 l r :
  columns l1 = columns l2 → columns r1 = columns r2 →
  eq_cond l1 l r1 r = eq_cond l2 l r2 r.
Proof. intros Hl Hr. unfold eq_cond, getitem. by rewrite Hl, Hr. Qed.

Lemma enrich_schema t t' :
  dyf_fields (yellow_dyf t) = dyf_fields (yellow_dyf t') →
  same_schema (yellow_opt_df t) (yellow_opt_df t').
Proof.
  intros Hf. unfold yellow_opt_df, enrich.
  assert (columns (yellow_df t) = columns (yellow_df t')) as Hy by done.
  rewrite (eq_cond_columns (yellow_df t) (yellow_df t')
             (pu_taxi_zone_df t) (pu_taxi_zone_df t')) by done.
  rewrite (eq_cond_columns (yellow_df t) (yellow_df t')
             (do_taxi_zone_df t) (do_taxi_zone_df t')) by done.
  rewrite (eq_cond_columns (yellow_df t) (yellow_df t')
             (payment_type_df t) (payment_type_df t')) by done.
  rewrite (eq_cond_columns (yellow_df t) (yellow_df t')
             (rate_code_df t) (rate_code_df t')) by done.
  destruct (eq_cond (yellow_df t') "pulocationid" _ _) as [on1|e]; simpl; [|done].
  destruct (eq_cond (yellow_df t') "dolocationid" _ _) as [on2|e]; simpl; [|done].
  destruct (eq_cond (yellow_df t') "payment_type" _ _) as [on3|e]; simpl; [|done].
  destruct (eq_cond (yellow_df t') "ratecodeid" _ _) as [on4|e]; simpl; [|done].
  apply bind_schema.
  { apply withColumn_schema. simpl. by rewrite Hf. }
  intros ???. apply bind_schema; [by apply withColumn_schema|].
  intros ???. apply bind_schema; [by apply withColumn_schema|].
  intros ???. apply bind_schema; [by apply withColumn_schema|].
  intros ???. apply bind_schema; [by apply withColumn_schema|].
  intros ???. apply bind_schema; [by apply orderBy_schema|].
  intros dl dr Hd. simpl. by rewrite Hd.
Qed.

Lemma save_outcome path w w' store store' :
  columns (w_df w) = columns (w_df w') → w_mode w = w_mode w' →
  w_partitionBy w = w_partitionBy w' → save_mode (w_mode w) = Some Overwrite →
  same_outcome (save path w store) (save path w' store').
Proof.
  intros Hc Hm Hp Hover. unfold save. rewrite <- Hm, <- Hp, <- Hc, Hover. simpl.
  destruct (decide (NoDup (columns (w_df w)))); simpl; [|done].
  destruct (resolve_all (w_partitionBy w) (columns (w_df w))) as [[]|e]; simpl; [|done].
  by destruct (decide (filter _ (columns (w_df w)) = [])).
Qed.

(** ** Fact rows without a join key *)

Lemma bind_nil_ext {A B} (f : A → list B) (l : list A) :
  (∀ a, f a = []) → l ≫= f = [].
Proof.
  intros Hf. induction l as [|a l IH]; [done|]. by rewrite bind_cons, Hf, IH.
Qed.

Lemma expand_null_key t a :
  ¬ keys_present a → expand t a = [].
Proof.
  intros Hk. unfold expand, pu_matches, do_matches, payment_matches, rate_matches.
  destruct (decide (cell "pulocationid" a = VNull)) as [->|H1];
    [by rewrite matches_null|].
  apply bind_nil_ext. intros b1.
  destruct (decide (cell "dolocationid" a = VNull)) as [->|H2];
    [by rewrite matches_null|].
  apply bind_nil_ext. intros b2.
  destruct (decide (cell "payment_type" a = VNull)) as [->|H3];
    [by rewrite matches_null|].
  apply bind_nil_ext. intros b3.
  destruct (decide (cell "ratecodeid" a = VNull)) as [->|H4];
    [by rewrite matches_null|].
  exfalso. apply Hk. unfold keys_present. by repeat (apply Forall_cons; split).
Qed.

Lemma keys_present_toRow fields rec :
  Forall (λ c, c ∈ fields) required_columns →
  keys_present (toRow fields rec) ↔ keys_present rec.
Proof.
  intros Hreq. unfold keys_present.
  assert (Forall (λ k, k ∈ fields)
            ["pulocationid"; "dolocationid"; "payment_type"; "ratecodeid"]) as Hk.
  { apply Forall_forall. intros k Hk. rewrite Forall_forall in Hreq. apply Hreq.
    revert k Hk. apply Forall_forall. compute_done. }
  induction Hk as [|k ks Hk _ IH]; [done|].
  rewrite !Forall_cons, IH, cell_toRow; done.
Qed.

Lemma bind_filter_nil {A B} (P : A → Prop) `{!∀ a, Decision (P a)}
    (f : A → list B) (l : list A) :
  (∀ a, ¬ P a → f a = []) → filter P l ≫= f = l ≫= f.
Proof.
  intros Hf. induction l as [|a l IH]; [done|].
  rewrite filter_cons, bind_cons. destruct (decide (P a)) as [|Ha].
  - by rewrite bind_cons, IH.
  - by rewrite (Hf a Ha), IH.
Qed.

Lemma filter_fmap_iff {A B} (P : B → Prop) `{!∀ b, Decision (P b)}
    (Q : A → Prop) `{!∀ a, Decision (Q a)} (f : A → B) (l : list A) :
  (∀ a, P (f a) ↔ Q a) → filter P (f <$> l) = f <$> filter Q l.
Proof.
  intros HPQ. induction l as [|a l IH]; [done|].
  rewrite fmap_cons, !filter_cons, IH.
  destruct (decide (P (f a))) as [HP|HP], (decide (Q a)) as [HQ|HQ]; try done.
  - by apply HPQ in HP.
  - by apply HPQ in HQ.
Qed.

(** X10: a row of the yellow table in which one of the four join keys is
    null is matched by no look-up row, whatever the look-ups hold (the
    four [==] conditions of lines 178-181): taking those rows out of the
    table beforehand changes nothing, neither the frame the run produces
    nor the error it fails with. *)
Theorem rows_with_a_null_key_are_left_out t :
  yellow_opt_df (with_trips t (filter keys_present (dyf_records (yellow_dyf t))))
  = yellow_opt_df t.
Proof.
  set (t' := with_trips t (filter keys_present (dyf_records (yellow_dyf t)))).
  pose proof (enrich_schema t' t eq_refl) as Hs.
  destruct (yellow_opt_df t') as [df'|e'] eqn:Hrun',
           (yellow_opt_df t) as [df|e] eqn:Hrun; simpl in Hs; try done;
    [|by rewrite Hs].
  destruct (yellow_opt_run t df Hrun) as (Hreq & _ & Hrows).
  destruct (yellow_opt_run t' df' Hrun') as (Hreq' & _ & Hrows').
  assert (joined inner_join t' = joined inner_join t) as Hj.
  { rewrite !joined_inner by done.
    change (expand t') with (expand t).
    change (rows (yellow_df t'))
      with (toRow (dyf_fields (yellow_dyf t))
              <$> filter keys_present (dyf_records (yellow_dyf t))).
    change (rows (yellow_df t))
      with (toRow (dyf_fields (yellow_dyf t)) <$> dyf_records (yellow_dyf t)).
    rewrite <- (bind_filter_nil keys_present (expand t)
                  (toRow _ <$> dyf_records (yellow_dyf t)))
      by apply expand_null_key.
    f_equal. symmetry. apply filter_fmap_iff. intros rec.
    by apply keys_present_toRow. }
  rewrite Hj, <- Hrows in Hrows'.
  destruct df, df'; simpl in *; by subst.
Qed.

End outcomes.

Example null_pickup_location_is_left_out :
  cell "pulocationid" unknown_pickup_trip = VNull
  ∧ yellow_opt_df (sample_tables [unknown_pickup_trip; example_trip])
    = yellow_opt_df (sample_tables [example_trip]).
Proof. split; vm_compute; reflexivity. Qed.

(** ** A fact table that lacks a column *)

Section columns_and_size.
Context {engine : Engine}.

Lemma resolve_absent name cols :
  name ∉ cols → resolve name cols = Err (AnalysisException "cannot resolve" name).
Proof. intros H. unfold resolve. by rewrite filter_eq_absent. Qed.

Lemma resolve_app_fresh name cols tail :
  name ∉ tail → resolve name (cols ++ tail) = resolve name cols.
Proof.
  intros H. unfold resolve. by rewrite filter_app, (filter_eq_absent name tail), app_nil_r.
Qed.

Lemma resolve_set_name name other cols :
  name ≠ other → resolve name (set_name other cols) = resolve name cols.
Proof.
  intros H. unfold set_name. destruct (decide (other ∈ cols)); [done|].
  apply resolve_app_fresh. by intros ->%list_elem_of_singleton.
Qed.

Lemma eq_cond_fact t l right r :
  resolve r (columns right) = Ok () →
  eq_cond (yellow_df t) l right r
  = match resolve l (dyf_fields (yellow_dyf t)) with
    | Ok _ => Ok (l, r)
    | Err e => Err e
    end.
Proof.
  intros Hr. unfold eq_cond, getitem. rewrite Hr.
  change (columns (yellow_df t)) with (dyf_fields (yellow_dyf t)).
  by destruct (resolve l (dyf_fields (yellow_dyf t))).
Qed.

(** X11: the run reads six columns of the yellow table, in the order
    pulocationid, dolocationid, payment_type, ratecodeid (the join
    conditions of lines 178-181), tpep_pickup_datetime and
    tpep_dropoff_datetime (lines 182-183).  When the table lacks one of
    them and has each of the ones read before it exactly once, the frame
    is not built: the analysis fails with [cannot resolve] for that
    column, and nothing is written. *)
Theorem missing_fact_column_aborts_the_run t store before c after :
  required_columns = before ++ c :: after →
  Forall (λ x, resolve x (dyf_fields (yellow_dyf t)) = Ok ()) before →
  c ∉ dyf_fields (yellow_dyf t) →
  yellow_opt_df t = Err (AnalysisException "cannot resolve" c)
  ∧ write_yellow_opt t store = Err (AnalysisException "cannot resolve" c).
Proof.
  intros Hsplit Hbefore Habsent.
  assert (yellow_opt_df t = Err (AnalysisException "cannot resolve" c)) as Hrun;
    [|split; [done|]; unfold write_yellow_opt; by rewrite Hrun].
  pose proof (resolve_absent c _ Habsent) as Herr.
  unfold yellow_opt_df, enrich.
  rewrite !eq_cond_fact by done.
  unfold required_columns in Hsplit.
  destruct before as [|b1 before]; simpl in Hsplit; injection Hsplit as <- Hsplit;
    [by rewrite Herr|].
  apply Forall_cons in Hbefore as [H1 Hbefore]. rewrite H1.
  destruct before as [|b2 before]; simpl in Hsplit; injection Hsplit as <- Hsplit;
    [by rewrite Herr|].
  apply Forall_cons in Hbefore as [H2 Hbefore]. rewrite H2.
  destruct before as [|b3 before]; simpl in Hsplit; injection Hsplit as <- Hsplit;
    [by rewrite Herr|].
  apply Forall_cons in Hbefore as [H3 Hbefore]. rewrite H3.
  destruct before as [|b4 before]; simpl in Hsplit; injection Hsplit as <- Hsplit;
    [by rewrite Herr|].
  apply Forall_cons in Hbefore as [H4 Hbefore]. rewrite H4.
  cbn [mbind Result_bind]. unfold withColumn at 5. cbn [analyze join columns fst snd].
  change (columns (yellow_df t)) with (dyf_fields (yellow_dyf t)).
  change (columns (broadcast ?d).1) with (columns d).
  rewrite <- !app_assoc.
  rewrite (resolve_app_fresh "tpep_pickup_datetime") by compute_done.
  destruct before as [|b5 before]; simpl in Hsplit; injection Hsplit as <- Hsplit;
    [by rewrite Herr|].
  apply Forall_cons in Hbefore as [H5 Hbefore]. rewrite H5.
  cbn [mbind Result_bind mret Result_ret]. unfold withColumn at 4.
  cbn [analyze columns].
  rewrite resolve_set_name by done.
  rewrite (resolve_app_fresh "tpep_dropoff_datetime") by compute_done.
  destruct before as [|b6 before]; simpl in Hsplit; injection Hsplit as <- Hsplit;
    [by rewrite Herr|].
  by destruct before.
Qed.

End columns_and_size.

Lemma missing_fact_column_aborts_the_run_witness :
  yellow_opt_df tables_without_ratecodeid
  = Err (AnalysisException "cannot resolve" "ratecodeid")
  ∧ write_yellow_opt tables_without_ratecodeid stale_store
    = Err (AnalysisException "cannot resolve" "ratecodeid").
Proof.
  apply (missing_fact_column_aborts_the_run tables_without_ratecodeid stale_store
           ["pulocationid"; "dolocationid"; "payment_type"] "ratecodeid"
           ["tpep_pickup_datetime"; "tpep_dropoff_datetime"]).
  - reflexivity.
  - repeat (apply Forall_cons; split; [vm_compute; reflexivity|]).
    apply Forall_nil_2.
  - vm_compute. intros H. repeat (apply elem_of_cons in H as [H|H]; [discriminate|]).
    by apply elem_of_nil in H.
Defined.

(** ** The size of the result *)

Section columns_and_size_2.
Context {engine : Engine}.

Lemma length_bind_const {A B} (f : A → list B) (n : nat) (l : list A) :
  (∀ a, length (f a) = n) → length (l ≫= f) = (length l * n)%nat.
Proof.
  intros Hf. induction l as [|a l IH]; [done|].
  rewrite bind_cons, length_app, Hf, IH. simpl. lia.
Qed.

Lemma length_bind_sum {A B} (f : A → list B) (l : list A) :
  length (l ≫= f) = sum_list ((λ a, length (f a)) <$> l).
Proof.
  induction l as [|a l IH]; [done|].
  rewrite bind_cons, length_app, IH. done.
Qed.

Lemma length_expand t a : length (expand t a) = fan_out t a.
Proof.
  unfold expand, fan_out.
  rewrite (length_bind_const _
             (length (do_matches t a) * (length (payment_matches t a)
              * length (rate_matches t a)))%nat); [lia|].
  intros b1.
  rewrite (length_bind_const _
             (length (payment_matches t a) * length (rate_matches t a))%nat); [lia|].
  intros b2.
  rewrite (length_bind_const _ (length (rate_matches t a))); [lia|].
  intros b3. by rewrite length_fmap.
Qed.

(** X12: on a yellow table whose key columns hold bigint values, the
    four inner joins of lines 178-181 multiply: a row of the yellow table
    contributes to the result as many rows as the product
    of the numbers of rows that match it in the four look-ups, and the
    result has the sum of these products over the yellow table.  A row
    without a match in one look-up contributes none; a key that a
    look-up lists twice doubles the rows of the trips that carry it. *)
Theorem output_size_is_the_sum_of_the_fan_outs t df :
  bigint_keys t →
  yellow_opt_df t = Ok df →
  length (rows df) = sum_list (fan_out t <$> rows (yellow_df t)).
Proof.
  intros _ Hrun.
  rewrite (Permutation_length (yellow_opt_rows_Permutation t df Hrun)).
  rewrite length_fmap, length_bind_sum.
  f_equal. apply list_fmap_ext. intros _ a _. apply length_expand.
Qed.

End columns_and_size_2.

Lemma output_size_is_the_sum_of_the_fan_outs_witness :
  bigint_keys (duplicated_tables [example_trip; rate_99_trip; round_trip])
  ∧ ∃ df, yellow_opt_df (duplicated_tables [example_trip; rate_99_trip; round_trip]) = Ok df
    ∧ fan_out (duplicated_tables [example_trip; rate_99_trip; round_trip])
        <$> rows (yellow_df (duplicated_tables [example_trip; rate_99_trip; round_trip]))
      = [2; 0; 4]%nat
    ∧ length (rows df) = 6%nat.
Proof.
  split; [by apply (bool_decide_unpack _); vm_compute|].
  eexists. split; [vm_compute; reflexivity|]. split; [vm_compute; reflexivity|].
  rewrite (output_size_is_the_sum_of_the_fan_outs
             (duplicated_tables [example_trip; rate_99_trip; round_trip]));
    [vm_compute; reflexivity|by apply (bool_decide_unpack _); vm_compute|vm_compute; reflexivity].
Defined.

(** ** Where a trip is stored *)

Section months.
Context {engine : Engine}.

Lemma partition_dir_month (r : Row) :
  partition_dir destination ["pu_year"; "pu_month"] r
  = month_dir (cell "pu_year" r) (cell "pu_month" r).
Proof. reflexivity. Qed.

Lemma strict_parse_timestamp_valid fmt s ts :
  strict_parse_timestamp fmt s = Some ts → valid_timestamp ts = true.
Proof.
  unfold strict_parse_timestamp. destruct (parse_fields _ _ _) as [t0|]; [|done].
  destruct (valid_timestamp t0) eqn:Hv; [|done]. by intros [= <-].
Qed.

Lemma valid_timestamp_bounds ts :
  valid_timestamp ts = true →
  1 ≤ ts_month ts ≤ 12 ∧ 1 ≤ ts_day ts ≤ 31
  ∧ ts_day ts ≤ days_in_month (ts_year ts) (ts_month ts).
Proof.
  unfold valid_timestamp. rewrite !andb_true_iff, !Z.leb_le.
  intros ((((((? & ?) & ?) & Hd) & _) & _) & _).
  assert (days_in_month (ts_year ts) (ts_month ts) ≤ 31).
  { unfold days_in_month.
    destruct (ts_month ts =? 2); [by destruct (leap_year _)|].
    by destruct (_ || _). }
  lia.
Qed.

(** X13: every fully matched trip is found again in the store: after a
    run that succeeds, the directory of the year and the month of its
    pick-up instant (lines 182-185, 250-251) holds a row with that instant
    and its day of the month.  When the engine reads an instant in the
    pick-up string, that is the directory [pu_year=Y/pu_month=M/] of its
    year and month, written without padding; when it reads none, it is
    the directory
    [pu_year=__HIVE_DEFAULT_PARTITION__/pu_month=__HIVE_DEFAULT_PARTITION__/]. *)
Theorem matched_trip_is_stored_under_its_pickup_month t store store' a :
  write_yellow_opt t store = Ok store' →
  a ∈ rows (yellow_df t) → full_match t a →
  (∃ data r,
     store' !! month_dir (field_of ts_year (pickup_instant a))
                         (field_of ts_month (pickup_instant a)) = Some data
     ∧ r ∈ data
     ∧ cell "pu_datetime" r = pickup_instant a
     ∧ cell "pu_day" r = field_of ts_day (pickup_instant a))
  ∧ (∀ s ts, cell "tpep_pickup_datetime" a = VStr s →
       parse_timestamp timestamp_format s = Some ts →
       is_Some (store' !! (destination +:+ "pu_year=" +:+ pretty (ts_year ts)
                           +:+ "/pu_month=" +:+ pretty (ts_month ts) +:+ "/")))
  ∧ (∀ s, cell "tpep_pickup_datetime" a = VStr s →
       parse_timestamp timestamp_format s = None →
       is_Some (store' !! (destination +:+ "pu_year=__HIVE_DEFAULT_PARTITION__"
                           +:+ "/pu_month=__HIVE_DEFAULT_PARTITION__/"))).
Proof.
  intros (df & Hdf & _ & ->)%write_yellow_opt_Ok Ha Hfull.
  destruct (yellow_opt_run t df Hdf) as (Hreq & _ & _).
  apply expand_nonempty in Hfull as [j Hj].
  destruct (expand_derived_timestamps t a j Hreq Ha Hj) as (Hpu & _ & Hy & Hm & Hd).
  assert (finish j ∈ rows df) as Hr.
  { apply (elem_of_yellow_opt_rows t df _ Hdf). by exists a, j. }
  fold (pickup_instant a) in Hpu. rewrite Hpu in Hy, Hm, Hd.
  assert (∃ data r,
     (layout destination ["pu_year"; "pu_month"] (rows df) ∪ outside destination store)
       !! month_dir (field_of ts_year (pickup_instant a))
                    (field_of ts_month (pickup_instant a)) = Some data
     ∧ r ∈ data
     ∧ cell "pu_datetime" r = pickup_instant a
     ∧ cell "pu_day" r = field_of ts_day (pickup_instant a)) as Hstored.
  { rewrite <- Hy, <- Hm, <- partition_dir_month.
    set (d := partition_dir destination ["pu_year"; "pu_month"] (finish j)).
    assert (finish j ∈ filter (λ r, partition_dir destination ["pu_year"; "pu_month"] r = d)
                         (rows df)) as Hg by (by apply list_elem_of_filter).
    exists (drop_cells ["pu_year"; "pu_month"]
              <$> filter (λ r, partition_dir destination ["pu_year"; "pu_month"] r = d)
                    (rows df)),
           (drop_cells ["pu_year"; "pu_month"] (finish j)).
    split; [|split; [|split]].
    - apply lookup_union_Some_l. rewrite layout_lookup.
      destruct (filter _ (rows df)) as [|r0 g]; [by apply elem_of_nil in Hg|].
      reflexivity.
    - by apply list_elem_of_fmap_2.
    - by rewrite cell_drop_cells by compute_done.
    - by rewrite cell_drop_cells by compute_done. }
  split; [done|]. destruct Hstored as (data & r & Hdata & _). split.
  - intros s ts Hs Hparse. exists data. rewrite <- Hdata.
    unfold pickup_instant. rewrite Hs. simpl. by rewrite Hparse.
  - intros s Hs Hparse. exists data. rewrite <- Hdata.
    unfold pickup_instant. rewrite Hs. simpl. by rewrite Hparse.
Qed.

End months.

Lemma matched_trip_is_stored_under_its_pickup_month_witness :
  ∃ store', write_yellow_opt sample_run stale_store = Ok store'
    ∧ is_Some (store' !! (destination +:+ "pu_year=2019/pu_month=1/"))
    ∧ is_Some (store' !! (destination +:+ "pu_year=__HIVE_DEFAULT_PARTITION__"
                          +:+ "/pu_month=__HIVE_DEFAULT_PARTITION__/")).
Proof.
  destruct (write_yellow_opt_total sample_run stale_store) as [store' Hw];
    [vm_compute; reflexivity|].
  exists store'. split; [done|]. split.
  - assert (example_trip ∈ rows (yellow_df sample_run)) as Ha by (vm_compute; left).
    assert (full_match sample_run example_trip) as Hfull.
    { repeat split; vm_compute; discriminate. }
    destruct (matched_trip_is_stored_under_its_pickup_month
                sample_run stale_store store' example_trip Hw Ha Hfull)
      as (_ & Hparsed & _).
    apply (Hparsed "2019-01-15 08:30:00" (Timestamp 2019 1 15 8 30 0));
      vm_compute; reflexivity.
  - assert (unparsable_trip ∈ rows (yellow_df sample_run)) as Ha
      by (vm_compute; right; right; left).
    assert (full_match sample_run unparsable_trip) as Hfull.
    { repeat split; vm_compute; discriminate. }
    destruct (matched_trip_is_stored_under_its_pickup_month
                sample_run stale_store store' unparsable_trip Hw Ha Hfull)
      as (_ & _ & Hnull).
    apply (Hnull "15/01/2019 08:30"); vm_compute; reflexivity.
Defined.

Section months_2.
Context {engine : Engine}.

(** X14: in every output row the three calendar columns go with the
    pick-up timestamp (lines 182-186): either all four are null, or the
    timestamp is an instant and the three columns are its year, month and
    day of the month.  When the raw pick-up cell of the fact row is a
    string, the instant is the one the engine reads in it; and provided
    the instants the engine reads are calendar instants, its month lies
    between 1 and 12 and its day between 1 and the length of that
    month. *)
Theorem calendar_columns_go_with_the_pickup_timestamp t df :
  (∀ s ts, parse_timestamp timestamp_format s = Some ts → valid_timestamp ts = true) →
  yellow_opt_df t = Ok df →
  ∀ r, r ∈ rows df →
    ∃ a, a ∈ rows (yellow_df t)
      ∧ ((cell "pu_datetime" r = VNull ∧ cell "pu_year" r = VNull
          ∧ cell "pu_month" r = VNull ∧ cell "pu_day" r = VNull)
         ∨ ∃ ts, cell "pu_datetime" r = VTs ts
             ∧ cell "pu_year" r = VInt (ts_year ts)
             ∧ cell "pu_month" r = VInt (ts_month ts)
             ∧ cell "pu_day" r = VInt (ts_day ts)
             ∧ ∀ s, cell "tpep_pickup_datetime" a = VStr s →
                 parse_timestamp timestamp_format s = Some ts
                 ∧ 1 ≤ ts_month ts ≤ 12 ∧ 1 ≤ ts_day ts ≤ 31
                 ∧ ts_day ts ≤ days_in_month (ts_year ts) (ts_month ts)).
Proof.
  intros Hvalid Hrun r (a & j & Ha & Hj & ->)%(elem_of_yellow_opt_rows t df); [|done].
  destruct (yellow_opt_run t df Hrun) as (Hreq & _ & _).
  destruct (expand_derived_timestamps t a j Hreq Ha Hj) as (Hpu & _ & Hy & Hm & Hd).
  exists a. split; [done|]. rewrite Hy, Hm, Hd, Hpu.
  destruct (cell "tpep_pickup_datetime" a) as [|z|s|ts0] eqn:Hraw; simpl.
  - by left.
  - by left.
  - destruct (parse_timestamp timestamp_format s) as [ts|] eqn:Hparse; [|by left].
    right. exists ts. repeat (split; [done|]). intros s' [= <-]. split; [done|].
    by apply valid_timestamp_bounds, (Hvalid s).
  - right. exists ts0. repeat (split; [done|]). by intros s'.
Qed.

End months_2.

Lemma calendar_columns_go_with_the_pickup_timestamp_witness :
  ∃ df, yellow_opt_df sample_run = Ok df
    ∧ (λ r, (cell "pu_year" r, cell "pu_month" r, cell "pu_day" r)) <$> rows df
      = [(VNull, VNull, VNull); (VInt 2019, VInt 1, VInt 15); (VInt 2019, VInt 1, VInt 15)]
    ∧ ∀ r, r ∈ rows df →
        ∃ a, a ∈ rows (yellow_df sample_run)
          ∧ ((cell "pu_datetime" r = VNull ∧ cell "pu_year" r = VNull
              ∧ cell "pu_month" r = VNull ∧ cell "pu_day" r = VNull)
             ∨ ∃ ts, cell "pu_datetime" r = VTs ts
                 ∧ cell "pu_year" r = VInt (ts_year ts)
                 ∧ cell "pu_month" r = VInt (ts_month ts)
                 ∧ cell "pu_day" r = VInt (ts_day ts)
                 ∧ ∀ s, cell "tpep_pickup_datetime" a = VStr s →
                     parse_timestamp timestamp_format s = Some ts
                     ∧ 1 ≤ ts_month ts ≤ 12 ∧ 1 ≤ ts_day ts ≤ 31
                     ∧ ts_day ts ≤ days_in_month (ts_year ts) (ts_month ts)).
Proof.
  eexists. split; [vm_compute; reflexivity|]. split; [vm_compute; reflexivity|].
  apply (calendar_columns_go_with_the_pickup_timestamp sample_run);
    [apply strict_parse_timestamp_valid|vm_compute; reflexivity].
Defined.

(** ** The order of the yellow table's rows *)

Section row_order.
Context {engine : Engine}.

Lemma layout_Permutation path keys rs1 rs2 d :
  rs1 ≡ₚ rs2 →
  option_Forall2 (≡ₚ) (layout path keys rs1 !! d) (layout path keys rs2 !! d).
Proof.
  intros Hp. rewrite !layout_lookup.
  assert (filter (λ r, partition_dir path keys r = d) rs1
          ≡ₚ filter (λ r, partition_dir path keys r = d) rs2) as Hf by (by rewrite Hp).
  destruct (filter _ rs1) as [|r1 g1], (filter _ rs2) as [|r2 g2].
  - constructor.
  - by apply Permutation_nil_cons in Hf.
  - symmetry in Hf. by apply Permutation_nil_cons in Hf.
  - constructor. by rewrite Hf.
Qed.

(** X15: [repartition(4 * 10)] (line 152) redistributes the rows of the
    yellow table over the workers, and the result does not depend on the
    order in which they then come: on the same records in another order
    the run ends the same way, the enriched frame has the same columns
    and the same rows up to their order, and every directory of the
    store holds the same rows up to their order. *)
Theorem result_does_not_depend_on_the_order_of_the_trips t trips store :
  dyf_records (yellow_dyf t) ≡ₚ trips →
  same_result (yellow_opt_df t) (yellow_opt_df (with_trips t trips))
  ∧ same_contents (write_yellow_opt t store) (write_yellow_opt (with_trips t trips) store).
Proof.
  intros Hp. set (t' := with_trips t trips).
  assert (same_result (yellow_opt_df t) (yellow_opt_df t')) as Hsame.
  { unfold yellow_opt_df, enrich.
    rewrite (eq_cond_columns (yellow_df t) (yellow_df t')
               (pu_taxi_zone_df t) (pu_taxi_zone_df t')) by done.
    rewrite (eq_cond_columns (yellow_df t) (yellow_df t')
               (do_taxi_zone_df t) (do_taxi_zone_df t')) by done.
    rewrite (eq_cond_columns (yellow_df t) (yellow_df t')
               (payment_type_df t) (payment_type_df t')) by done.
    rewrite (eq_cond_columns (yellow_df t) (yellow_df t')
               (rate_code_df t) (rate_code_df t')) by done.
    pose proof broadcast_hash_join_implements as HB.
    destruct (eq_cond (yellow_df t') "pulocationid" _ _) as [on1|e]; simpl; [|done].
    destruct (eq_cond (yellow_df t') "dolocationid" _ _) as [on2|e]; simpl; [|done].
    destruct (eq_cond (yellow_df t') "payment_type" _ _) as [on3|e]; simpl; [|done].
    destruct (eq_cond (yellow_df t') "ratecodeid" _ _) as [on4|e]; simpl; [|done].
    apply bind_same.
    { apply withColumn_same.
      do 4 (apply (join_same broadcast_hash_join broadcast_hash_join); [done..|]).
      split; [done|]. simpl. by rewrite Hp. }
    intros ???. apply bind_same; [by apply withColumn_same|].
    intros ???. apply bind_same; [by apply withColumn_same|].
    intros ???. apply bind_same; [by apply withColumn_same|].
    intros ???. apply bind_same; [by apply withColumn_same|].
    intros ???. apply bind_same; [by apply orderBy_same|].
    intros ???. simpl. by apply drop_same. }
  split; [done|].
  pose proof (save_outcome destination) as Hsave.
  destruct (write_yellow_opt t store) as [s1|e1] eqn:H1,
           (write_yellow_opt t' store) as [s2|e2] eqn:H2.
  - apply write_yellow_opt_Ok in H1 as (df1 & Hdf1 & _ & ->).
    apply write_yellow_opt_Ok in H2 as (df2 & Hdf2 & _ & ->).
    rewrite Hdf1, Hdf2 in Hsame. destruct Hsame as [_ Hrows].
    intros d. rewrite !lookup_union.
    pose proof (layout_Permutation destination ["pu_year"; "pu_month"] _ _ d Hrows) as Hl.
    destruct Hl as [g1 g2 Hg|]; [|by destruct (outside destination store !! d);
                                      constructor].
    destruct (outside destination store !! d); by constructor.
  - unfold write_yellow_opt in H1, H2.
    destruct (yellow_opt_df t) as [df1|?], (yellow_opt_df t') as [df2|?];
      simpl in *; try done.
    destruct Hsame as [Hc _].
    pose proof (Hsave (yellow_opt_writer df1) (yellow_opt_writer df2) store store
                  Hc eq_refl eq_refl eq_refl) as Ho.
    by rewrite H1, H2 in Ho.
  - unfold write_yellow_opt in H1, H2.
    destruct (yellow_opt_df t) as [df1|?], (yellow_opt_df t') as [df2|?];
      simpl in *; try done.
    destruct Hsame as [Hc _].
    pose proof (Hsave (yellow_opt_writer df1) (yellow_opt_writer df2) store store
                  Hc eq_refl eq_refl eq_refl) as Ho.
    by rewrite H1, H2 in Ho.
  - unfold write_yellow_opt in H1, H2.
    destruct (yellow_opt_df t) as [df1|?], (yellow_opt_df t') as [df2|?];
      simpl in *; try done; [|congruence].
    destruct Hsame as [Hc _].
    pose proof (Hsave (yellow_opt_writer df1) (yellow_opt_writer df2) store store
                  Hc eq_refl eq_refl eq_refl) as Ho.
    by rewrite H1, H2 in Ho.
Qed.

End row_order.

Lemma result_does_not_depend_on_the_order_of_the_trips_witness :
  same_result
    (yellow_opt_df (sample_tables [example_trip; unparsable_trip]))
    (yellow_opt_df (with_trips (sample_tables [example_trip; unparsable_trip])
                      [unparsable_trip; example_trip]))
  ∧ same_contents
      (write_yellow_opt (sample_tables [example_trip; unparsable_trip]) stale_store)
      (write_yellow_opt (with_trips (sample_tables [example_trip; unparsable_trip])
                           [unparsable_trip; example_trip]) stale_store).
Proof.
  apply (result_does_not_depend_on_the_order_of_the_trips
           (sample_tables [example_trip; unparsable_trip])
           [unparsable_trip; example_trip] stale_store).
  simpl. apply perm_swap.
Defined.

Section row_order_2.
Context {engine : Engine}.

(** X16: the enrichment works row by row.  The frame built from a yellow
    table whose records are those of two tables, one after the other, has
    the columns of the frames built from either part and, up to the order
    of rows, the rows of both: what the run makes of one part of the
    yellow table owes nothing to its other rows (the parts the 40
    partitions of line 152 hold are enriched independently of each
    other). *)
Theorem enrichment_is_row_by_row t trips1 trips2 df :
  yellow_opt_df (with_trips t (trips1 ++ trips2)) = Ok df →
  ∃ df1 df2,
    yellow_opt_df (with_trips t trips1) = Ok df1
    ∧ yellow_opt_df (with_trips t trips2) = Ok df2
    ∧ columns df1 = columns df ∧ columns df2 = columns df
    ∧ rows df ≡ₚ rows df1 ++ rows df2.
Proof.
  intros Hrun.
  pose proof (enrich_schema (with_trips t trips1) (with_trips t (trips1 ++ trips2))
                eq_refl) as Hs1.
  pose proof (enrich_schema (with_trips t trips2) (with_trips t (trips1 ++ trips2))
                eq_refl) as Hs2.
  rewrite Hrun in Hs1, Hs2.
  destruct (yellow_opt_df (with_trips t trips1)) as [df1|] eqn:Hrun1; [|done].
  destruct (yellow_opt_df (with_trips t trips2)) as [df2|] eqn:Hrun2; [|done].
  simpl in Hs1, Hs2. exists df1, df2. repeat (split; [done|]).
  rewrite (yellow_opt_rows_Permutation _ _ Hrun),
          (yellow_opt_rows_Permutation _ _ Hrun1),
          (yellow_opt_rows_Permutation _ _ Hrun2).
  change (expand (with_trips t (trips1 ++ trips2))) with (expand t).
  change (expand (with_trips t trips1)) with (expand t).
  change (expand (with_trips t trips2)) with (expand t).
  change (rows (yellow_df (with_trips t (trips1 ++ trips2))))
    with (toRow (dyf_fields (yellow_dyf t)) <$> (trips1 ++ trips2)).
  change (rows (yellow_df (with_trips t trips1)))
    with (toRow (dyf_fields (yellow_dyf t)) <$> trips1).
  change (rows (yellow_df (with_trips t trips2)))
    with (toRow (dyf_fields (yellow_dyf t)) <$> trips2).
  by rewrite fmap_app, bind_app, fmap_app.
Qed.

End row_order_2.

Lemma enrichment_is_row_by_row_witness :
  ∃ df df1 df2,
    yellow_opt_df (with_trips sample_run ([example_trip] ++ [rate_99_trip; round_trip]))
    = Ok df
    ∧ yellow_opt_df (with_trips sample_run [example_trip]) = Ok df1
    ∧ yellow_opt_df (with_trips sample_run [rate_99_trip; round_trip]) = Ok df2
    ∧ columns df1 = columns df ∧ columns df2 = columns df
    ∧ rows df ≡ₚ rows df1 ++ rows df2.
Proof.
  destruct (yellow_opt_df_total
              (with_trips sample_run ([example_trip] ++ [rate_99_trip; round_trip])))
    as [df Hrun]; [vm_compute; reflexivity|].
  destruct (enrichment_is_row_by_row sample_run [example_trip]
              [rate_99_trip; round_trip] df Hrun) as (df1 & df2 & H).
  exists df, df1, df2. split; [exact Hrun|exact H].
Defined.
